(** * Melbourne-Footfalls: the decision logic of [custom_modules/plot_funs.py]

    A shallow embedding of the parts of [plot_funs.py] that compute values:

    - [plot_best_k] with its inner [plot_subplot]: for each of the four
      clustering metrics, the index of the chosen row, the cluster count at
      that row and the score at that row;
    - the palette arithmetic of [plot_map] and [plot_map_gradient_color];
    - [get_gradient_color].

    Calls that only draw (matplotlib axes, folium markers, [savefig],
    [print]) carry no value back into the computation and are left out,
    with one exception: [ax.plot(range(min_x, max_x + 1), scores)] in
    [plot_subplot] fails when the two sequences differ in length, and that
    check is embedded.

    Scores are Python floats. The selection only compares them ([>], [<],
    [==]), and on finite floats these comparisons are the comparisons of the
    rationals the floats denote, so score sequences are lists of [Q] with
    [Qle_bool] and [Qeq_bool]. [get_gradient_color] does arithmetic on floats
    and rounds, so it is embedded over binary64 floats ([PrimFloat]).

    [find_elbow] is imported from [modelling_funs], a module of the
    repository that is not among the sources; it is modelled from the
    specification and marked as such. *)

From Stdlib Require Import Strings.Ascii Strings.String.
From Stdlib Require Import List Bool Arith ZArith QArith Lia Lqa.
From Stdlib Require Import Permutation.
From Stdlib Require Import Floats.PrimFloat Floats.SpecFloat Floats.FloatOps.
From Stdlib Require Import Floats.FloatAxioms.
From Stdlib Require Import Numbers.Cyclic.Int63.Uint63.
From Stdlib Require Import Reals Qreals.
Import ListNotations.

(** ** Exceptions and results *)

(** The exceptions the embedded code can raise. [ValueError] is what the
    builtins [max], [min] and [list.index] raise, [int] on a NaN, and the
    plotting library on sequences of different lengths; [TypeError] is
    [range] on a NaN; [OverflowError] is [int] on an infinity; [IndexError]
    is what positional indexing raises out of range;
    [InsufficientDataError] is the failure of elbow detection on fewer than
    three points. *)
Inductive exn : Type :=
  | ValueError
  | TypeError
  | OverflowError
  | IndexError
  | InsufficientDataError.

Inductive result (A : Type) : Type :=
  | OK (a : A)
  | Raise (e : exn).

Arguments OK {A} a.
Arguments Raise {A} e.

Definition bind {A B : Type} (m : result A) (k : A -> result B) : result B :=
  match m with
  | OK a => k a
  | Raise e => Raise e
  end.

Declare Scope result_scope.
Delimit Scope result_scope with result.
Notation "x <- m ;; k" := (bind m (fun x => k))
  (at level 61, m at next level, right associativity) : result_scope.
Open Scope result_scope.

(** ** Python builtins on lists of numbers *)

Module Py.

(** [a > b] and [a < b] on numbers. *)
Definition gt (a b : Q) : bool := negb (Qle_bool a b).
Definition lt (a b : Q) : bool := negb (Qle_bool b a).

(** The loop of the builtin [max]: the running maximum is replaced only
    by an item that compares strictly greater. *)
Fixpoint max_loop (maxitem : Q) (l : list Q) : Q :=
  match l with
  | [] => maxitem
  | item :: l' => max_loop (if gt item maxitem then item else maxitem) l'
  end.

Fixpoint min_loop (minitem : Q) (l : list Q) : Q :=
  match l with
  | [] => minitem
  | item :: l' => min_loop (if lt item minitem then item else minitem) l'
  end.

(** [max(l)] and [min(l)]: [ValueError] on an empty sequence. *)
Definition max (l : list Q) : result Q :=
  match l with
  | [] => Raise ValueError
  | x :: l' => OK (max_loop x l')
  end.

Definition min (l : list Q) : result Q :=
  match l with
  | [] => Raise ValueError
  | x :: l' => OK (min_loop x l')
  end.

(** [l.index(x)]: position of the first item equal to [x], [ValueError]
    when there is none. *)
Fixpoint index (l : list Q) (x : Q) : result nat :=
  match l with
  | [] => Raise ValueError
  | y :: l' =>
      if Qeq_bool y x then OK 0%nat
      else i <- index l' x ;; OK (S i)
  end.

(** [l[i]] for a non-negative [i]: [IndexError] out of range. *)
Definition getitem {A : Type} (l : list A) (i : nat) : result A :=
  match nth_error l i with
  | Some a => OK a
  | None => Raise IndexError
  end.

End Py.

(** The expression of [plot_subplot] that picks the row when [is_elbow] is
    false:
    [scores.index(max(scores)) if is_higher_better else scores.index(min(scores))]. *)
Definition select_by_extremum (scores : list Q) (is_higher_better : bool)
  : result nat :=
  if is_higher_better
  then m <- Py.max scores ;; Py.index scores m
  else m <- Py.min scores ;; Py.index scores m.

(** ** The table of scores *)

(** One row of [df_scores]: a candidate cluster count and its four scores. *)
Record Row : Type := mkRow {
  Number_of_Clusters : Z;
  Silhouette_Score : Q;
  Distortion : Q;
  Davies_Bouldin : Q;
  Calinski_Harabasz : Q
}.

Definition DataFrame : Type := list Row.

(** [df[name].values.tolist()]: a column as a list. *)
Definition column {A : Type} (f : Row -> A) (df : DataFrame) : list A :=
  map f df.

(** [df.sort_values(by='Number_of_Clusters')]: rows in non-decreasing order
    of the cluster count. Rows with equal counts keep their relative order
    here; pandas' default sort does not promise that. The embedding is
    exact for tables with pairwise distinct cluster counts, and the
    statements below that depend on where rows with equal counts go are
    made for such tables only. *)
Fixpoint insert_row (r : Row) (df : DataFrame) : DataFrame :=
  match df with
  | [] => [r]
  | r' :: df' =>
      if (Number_of_Clusters r <=? Number_of_Clusters r')%Z
      then r :: r' :: df'
      else r' :: insert_row r df'
  end.

Fixpoint sort_values (df : DataFrame) : DataFrame :=
  match df with
  | [] => []
  | r :: df' => insert_row r (sort_values df')
  end.

(** ** Elbow detection *)

(** The points are [(i, values[i])]. [line_cross values i] is the cross
    product of the vector from the first point [(0, values[0])] to the last
    point [(n-1, values[n-1])] with the vector from the first point to
    [(i, values[i])]; [line_norm_sq values] is the squared length of the
    first vector. *)
Definition line_cross (values : list Q) (i : nat) : Q :=
  let n := length values in
  let y1 := nth 0 values 0 in
  let x2 := inject_Z (Z.of_nat (n - 1)) in
  let y2 := nth (n - 1) values 0 in
  let x0 := inject_Z (Z.of_nat i) in
  let y0 := nth i values 0 in
  (y2 - y1) * x0 - x2 * (y0 - y1).

Definition line_norm_sq (values : list Q) : Q :=
  let n := length values in
  let y1 := nth 0 values 0 in
  let x2 := inject_Z (Z.of_nat (n - 1)) in
  let y2 := nth (n - 1) values 0 in
  (y2 - y1) * (y2 - y1) + x2 * x2.

(** The perpendicular distance from the point [(i, values[i])] to the line
    through the first and the last point, a real number. *)
Definition perp_dist (values : list Q) (i : nat) : R :=
  (Rabs (Q2R (line_cross values i)) / sqrt (Q2R (line_norm_sq values)))%R.

(** Its square, a rational: what the scan compares. Squaring keeps the
    computation exact and keeps the order of the distances
    ([perp_dist_le_iff] below). *)
Definition perp_dist_sq (values : list Q) (i : nat) : Q :=
  (line_cross values i * line_cross values i) / line_norm_sq values.

(** The first of the candidates [best :: candidates] at which [f] is
    largest: a later candidate replaces the current one only when [f] is
    strictly larger there. *)
Fixpoint argmax_first (f : nat -> Q) (best : nat) (candidates : list nat)
  : nat :=
  match candidates with
  | [] => best
  | i :: rest =>
      argmax_first f (if Py.gt (f i) (f best) then i else best) rest
  end.

(** Modelled from the spec: [find_elbow] comes from the module
    [modelling_funs] ([from modelling_funs import *]), which is not among
    the sources. The spec's [select_by_elbow]: fail on fewer than three
    points; otherwise, among the interior points [1 .. n-2], the first one
    whose perpendicular distance to the line through the first and the last
    point is largest. *)
Definition find_elbow (values : list Q) : result nat :=
  let n := length values in
  if (n <? 3)%nat then Raise InsufficientDataError
  else OK (argmax_first (perp_dist_sq values) 1%nat (seq 2 (n - 3))).

(** ** The x axis of the panels of [plot_best_k] *)

(** [range(a, b)]. *)
Definition range (a b : Z) : list Z :=
  map (fun i => (a + Z.of_nat i)%Z) (seq 0 (Z.to_nat (b - a))).

(** [np.min] and [np.max] of a column of integers; [None] stands for the
    NaN that an empty column gives. *)
Definition np_min (ks : list Z) : option Z :=
  match ks with
  | [] => None
  | k :: ks' => Some (fold_left Z.min ks' k)
  end.

Definition np_max (ks : list Z) : option Z :=
  match ks with
  | [] => None
  | k :: ks' => Some (fold_left Z.max ks' k)
  end.

(** [range(min_x, max_x + 1)], the x values that every panel plots the
    scores against; [min_x] and [max_x] are read from the table as the
    caller passes it, before it is sorted. *)
Definition x_axis (df_scores : DataFrame) : option (list Z) :=
  match np_min (column Number_of_Clusters df_scores),
        np_max (column Number_of_Clusters df_scores) with
  | Some min_x, Some max_x => Some (range min_x (max_x + 1))
  | _, _ => None
  end.

(** ** [plot_best_k] *)

(** [ax.plot(range(min_x, max_x + 1), scores, ...)], as far as it can
    fail: [range] refuses the NaN that an empty column gives, and the
    plotting library refuses x and y of different lengths. *)
Definition ax_plot (x : option (list Z)) (scores : list Q) : result unit :=
  match x with
  | None => Raise TypeError
  | Some xs =>
      if (length xs =? length scores)%nat then OK tt else Raise ValueError
  end.

(** The inner function [plot_subplot], as far as it computes: the chosen
    row index, then [(optimal_k, score)], then the plot of the scores
    against the x axis [x] (the [min_x] and [max_x] of the enclosing
    function); the pair is what it marks on the axes afterwards. *)
Definition plot_subplot (df_scores : DataFrame) (x : option (list Z))
  (scores : list Q) (is_higher_better is_elbow : bool) : result (Z * Q) :=
  optimal_k_index <-
    (if is_elbow then find_elbow scores
     else select_by_extremum scores is_higher_better) ;;
  optimal_k <-
    Py.getitem (column Number_of_Clusters df_scores) optimal_k_index ;;
  score <- Py.getitem scores optimal_k_index ;;
  _ <- ax_plot x scores ;;
  OK (optimal_k, score).

(** What the four calls of [plot_subplot] mark, one pair per panel. *)
Record BestK : Type := mkBestK {
  silhouette : Z * Q;
  distortion : Z * Q;
  davies_bouldin : Z * Q;
  calinski_harabasz : Z * Q
}.

(** [plot_best_k df_scores]: the caller's table after the call, and the
    outcome. [min_x] and [max_x] are read first; then
    [sort_values(..., inplace=True)] replaces the caller's table by the
    sorted one before any score is read; an exception in a later step
    leaves it sorted. The four panels are computed in the order of the
    source: silhouette, distortion (elbow), Davies-Bouldin, Calinski-Harabasz. *)
Definition plot_best_k (df_scores : DataFrame) : DataFrame * result BestK :=
  let x := x_axis df_scores in
  let df_scores := sort_values df_scores in
  let ss_scores := column Silhouette_Score df_scores in
  let distortions := column Distortion df_scores in
  let db_scores := column Davies_Bouldin df_scores in
  let ch_scores := column Calinski_Harabasz df_scores in
  (df_scores,
   s <- plot_subplot df_scores x ss_scores true false ;;
   d <- plot_subplot df_scores x distortions false true ;;
   b <- plot_subplot df_scores x db_scores false false ;;
   c <- plot_subplot df_scores x ch_scores true false ;;
   OK (mkBestK s d b c)).

(** ** Marker palettes *)

(** [l[i]] for a Python integer [i]: a negative index counts from the end. *)
Definition getitem_Z {A : Type} (l : list A) (i : Z) : result A :=
  let n := Z.of_nat (length l) in
  if (0 <=? i)%Z then Py.getitem l (Z.to_nat i)
  else if (- n <=? i)%Z then Py.getitem l (Z.to_nat (n + i))
  else Raise IndexError.

Module PlotMap.

Definition colors : list string :=
  ["red"; "blue"; "green"; "purple"; "orange"; "darkred"; "lightred";
   "beige"; "darkblue"; "darkgreen"]%string.

Definition icons : list string :=
  ["info-sign"; "cloud"; "star"; "heart"; "flag"; "euro"; "ok";
   "remove-sign"; "flash"; "question-sign"]%string.

(** The colour and the icon [plot_map] gives to the marker of a cluster:
    [colors[cluster % len(colors)]] and
    [icons[cluster // len(colors) % len(icons)]]. *)
Definition marker (cluster : Z) : result (string * string) :=
  let len_colors := Z.of_nat (length colors) in
  let len_icons := Z.of_nat (length icons) in
  color <- getitem_Z colors (cluster mod len_colors)%Z ;;
  icon_type <- getitem_Z icons ((cluster / len_colors) mod len_icons)%Z ;;
  OK (color, icon_type).

End PlotMap.

Module PlotMapGradientColor.

(** The palette of [plot_map_gradient_color]. The source has no comma
    between the literals ['lightred'] and ['lightgreen'], and Python joins
    adjacent string literals. *)
Definition colors : list string :=
  ["red"; "blue"; "green"; "purple"; "orange"; "pink"; "gray"; "darkred";
   "white"; "beige"; "darkblue"; "darkgreen"; "cadetblue"; "darkpurple";
   "lightblue"; "lightred" ++ "lightgreen"; "black"; "lightgray"]%string.

(** [base_color = colors[cluster % len(colors)]]. *)
Definition base_color (cluster : Z) : result string :=
  getitem_Z colors (cluster mod Z.of_nat (length colors))%Z.

End PlotMapGradientColor.

(** ** Gradient colours *)

(** [int(x)] on a float: truncation towards zero. *)
Definition int_of_float (x : float) : result Z :=
  match Prim2SF x with
  | S754_zero _ => OK 0%Z
  | S754_finite s m e =>
      let a := match e with
               | Zneg p => Z.shiftr (Zpos m) (Zpos p)
               | _ => Z.shiftl (Zpos m) e
               end in
      OK (if s then Z.opp a else a)
  | S754_infinity _ => Raise OverflowError
  | S754_nan => Raise ValueError
  end.

(** An integer of at most 53 bits as a float, as Python converts an [int]
    operand of a float operation. *)
Definition float_of_int (z : Z) : float := of_uint63 (Uint63.of_Z z).

Definition RGB : Type := (Z * Z * Z)%type.

Definition white_rgb : RGB := (255, 255, 255)%Z.

(** One channel of the gradient:
    [int(white_rgb[i] * (1 - factor) + base_rgb[i] * factor)]. *)
Definition gradient_channel (white base : Z) (factor : float) : result Z :=
  int_of_float
    (float_of_int white * (float_of_int 1 - factor)
     + float_of_int base * factor)%float.

Section GetGradientColor.

(** [ImageColor.getcolor(name, "RGB")] of the imaging library. *)
Variable getcolor : string -> result RGB.

Definition get_gradient_color (base_color : string) (value max_value : float)
  : result RGB :=
  base_rgb <- getcolor base_color ;;
  let '(w0, w1, w2) := white_rgb in
  let '(b0, b1, b2) := base_rgb in
  let factor := (value / max_value)%float in
  c0 <- gradient_channel w0 b0 factor ;;
  c1 <- gradient_channel w1 b1 factor ;;
  c2 <- gradient_channel w2 b2 factor ;;
  OK (c0, c1, c2).

End GetGradientColor.

(** The colour names of the two palettes that the imaging library knows
    (the CSS values); any other name is an unknown colour specifier. *)
Definition colormap : list (string * RGB) :=
  [("red", (255, 0, 0)); ("blue", (0, 0, 255)); ("green", (0, 128, 0));
   ("purple", (128, 0, 128)); ("orange", (255, 165, 0));
   ("pink", (255, 192, 203)); ("gray", (128, 128, 128));
   ("darkred", (139, 0, 0)); ("white", (255, 255, 255));
   ("beige", (245, 245, 220)); ("darkblue", (0, 0, 139));
   ("darkgreen", (0, 100, 0)); ("cadetblue", (95, 158, 160));
   ("lightblue", (173, 216, 230)); ("black", (0, 0, 0));
   ("lightgray", (211, 211, 211))]%string%Z.

Definition ImageColor_getcolor (name : string) : result RGB :=
  match find (fun p => String.eqb (fst p) name) colormap with
  | Some p => OK (snd p)
  | None => Raise ValueError
  end.

(** The same channel in exact arithmetic, as the formula reads over the
    reals: truncation of [white * (1 - value/max_value) + base * (value/max_value)]. *)
Definition Qtrunc (q : Q) : Z := Z.quot (Qnum q) (Zpos (Qden q)).

Definition gradient_channel_exact (white base : Z) (value max_value : Q) : Z :=
  let factor := value / max_value in
  Qtrunc (inject_Z white * (1 - factor) + inject_Z base * factor).

(** ** Predicates used in the statements *)

(** [values[i]] is a largest (smallest) item of [values]. *)
Definition maximum_at (values : list Q) (i : nat) : Prop :=
  (i < length values)%nat /\
  forall j, (j < length values)%nat -> nth j values 0 <= nth i values 0.

Definition minimum_at (values : list Q) (i : nat) : Prop :=
  (i < length values)%nat /\
  forall j, (j < length values)%nat -> nth i values 0 <= nth j values 0.

(** [i] is the first index with property [P]. *)
Definition first_index (P : nat -> Prop) (i : nat) : Prop :=
  P i /\ forall i', (i' < i)%nat -> ~ P i'.

(** [i] is an interior index of [values] (neither the first nor the last). *)
Definition interior (values : list Q) (i : nat) : Prop :=
  (1 <= i <= length values - 2)%nat.

(** [i] is an interior index at which the distance to the line through the
    end points is largest among the interior indices. *)
Definition elbow_at (values : list Q) (i : nat) : Prop :=
  interior values i /\
  forall j, interior values j ->
            (perp_dist values j <= perp_dist values i)%R.

(** [best] is the first index of the range [a .. s-1] at which [f] is
    largest: the invariant of the scan [argmax_first]. *)
Definition first_max_below (f : nat -> Q) (a best s : nat) : Prop :=
  (a <= best < s)%nat /\
  (forall j, (a <= j < s)%nat -> f j <= f best) /\
  (forall j, (a <= j < best)%nat -> f j < f best).

(** The cluster counts [ks] never decrease (strictly increase) along the
    sequence. *)
Fixpoint non_decreasing_from (k : Z) (ks : list Z) : bool :=
  match ks with
  | [] => true
  | k' :: ks' => (k <=? k')%Z && non_decreasing_from k' ks'
  end.

Definition non_decreasing (ks : list Z) : bool :=
  match ks with
  | [] => true
  | k :: ks' => non_decreasing_from k ks'
  end.

Fixpoint increasing_from (k : Z) (ks : list Z) : bool :=
  match ks with
  | [] => true
  | k' :: ks' => (k <? k')%Z && increasing_from k' ks'
  end.

Definition strictly_increasing (ks : list Z) : bool :=
  match ks with
  | [] => true
  | k :: ks' => increasing_from k ks'
  end.

(** A table as the data model wants it: cluster counts strictly increasing
    (so without duplicates) and at least three rows. *)
Definition well_formed (df : DataFrame) : Prop :=
  strictly_increasing (column Number_of_Clusters df) = true /\
  (3 <= length df)%nat.

(** A table the data model excludes: empty, cluster counts not strictly
    increasing (out of order or duplicated), or fewer than three rows. *)
Definition malformed (df : DataFrame) : Prop :=
  df = [] \/
  strictly_increasing (column Number_of_Clusters df) = false \/
  (length df < 3)%nat.

(** The x axis has one value per row: the table has as many rows as there
    are integers from its smallest to its largest cluster count. For
    pairwise distinct cluster counts this says that they are consecutive
    integers. *)
Definition axis_matches (df : DataFrame) : Prop :=
  exists xs, x_axis df = Some xs /\ length xs = length df.

(** The cluster counts of the table are the integers from the smallest to
    the largest of them, each once, in some order. *)
Definition fills_range (df : DataFrame) : Prop :=
  exists xs, x_axis df = Some xs /\
             Permutation xs (column Number_of_Clusters df).

(** [p] is the pair (cluster count, score) found at row [i] of the table
    and of the score sequence. *)
Definition picks (df : DataFrame) (scores : list Q) (i : nat) (p : Z * Q)
  : Prop :=
  nth_error (column Number_of_Clusters df) i = Some (fst p) /\
  nth_error scores i = Some (snd p).

(** [r] is what the four selection rules give on the table [df]: the
    largest silhouette, the elbow of the distortions, the smallest
    Davies-Bouldin index and the largest Calinski-Harabasz index, each with
    the cluster count of its row. *)
Definition evaluation_of (df : DataFrame) (r : BestK) : Prop :=
  exists i_s i_d i_b i_c : nat,
    (select_by_extremum (column Silhouette_Score df) true = OK i_s /\
     picks df (column Silhouette_Score df) i_s (silhouette r)) /\
    (find_elbow (column Distortion df) = OK i_d /\
     picks df (column Distortion df) i_d (distortion r)) /\
    (select_by_extremum (column Davies_Bouldin df) false = OK i_b /\
     picks df (column Davies_Bouldin df) i_b (davies_bouldin r)) /\
    (select_by_extremum (column Calinski_Harabasz df) true = OK i_c /\
     picks df (column Calinski_Harabasz df) i_c (calinski_harabasz r)).

(** The cluster counts of a result. *)
Definition chosen_ks (r : BestK) : list Z :=
  [fst (silhouette r); fst (distortion r); fst (davies_bouldin r);
   fst (calinski_harabasz r)].

(** ** Sample tables *)

(** Five candidate cluster counts, 2 to 6, with their scores. *)
Definition sample_scores : DataFrame :=
  [mkRow 2 0.41 100 1.2 150;
   mkRow 3 0.55 60 0.9 210;
   mkRow 4 0.48 35 0.7 260;
   mkRow 5 0.37 30 0.8 240;
   mkRow 6 0.30 28 1.1 200].

(** Three rows of the same table in another order (3, 2, 4). *)
Definition shuffled_scores : DataFrame :=
  [mkRow 3 0.55 60 0.9 210;
   mkRow 2 0.41 100 1.2 150;
   mkRow 4 0.48 35 0.7 260].

(** Three rows with gaps between the cluster counts (2, 4, 6). *)
Definition gapped_scores : DataFrame :=
  [mkRow 2 0.41 100 1.2 150;
   mkRow 4 0.48 35 0.7 260;
   mkRow 6 0.30 28 1.1 200].

(** * Further functions of [plot_funs.py] *)

(** ** The grid of panels of [plot_time_series_data_sensor] *)

(** [int(np.ceil(x))]: the least integer not below [x]. *)
Definition ceil_int (x : float) : result Z :=
  match Prim2SF x with
  | S754_zero _ => OK 0%Z
  | S754_finite s m e =>
      match e with
      | Zneg p =>
          let q := Z.shiftr (Zpos m) (Zpos p) in
          let whole := (Z.shiftl q (Zpos p) =? Zpos m)%Z in
          OK (if s then - q else if whole then q else q + 1)%Z
      | _ =>
          let a := Z.shiftl (Zpos m) e in
          OK (if s then - a else a)%Z
      end
  | S754_infinity _ => Raise OverflowError
  | S754_nan => Raise ValueError
  end.

(** The outcome of integer arithmetic that may divide by zero. *)
Inductive arith_result (A : Type) : Type :=
  | Return (a : A)
  | ZeroDivisionError
  | Other (e : exn).

Arguments Return {A} a.
Arguments ZeroDivisionError {A}.
Arguments Other {A} e.

(** The number of columns and rows of the grid:
    [cols = int(np.ceil(np.sqrt(num_sensors)))] and
    [rows = int(np.ceil(num_sensors / cols))], the pair [(rows, cols)].
    [num_sensors / cols] divides two Python integers. *)
Definition grid_cols (num_sensors : Z) : result Z :=
  ceil_int (PrimFloat.sqrt (float_of_int num_sensors)).

Definition subplot_grid (num_sensors : Z) : arith_result (Z * Z) :=
  match grid_cols num_sensors with
  | Raise e => Other e
  | OK cols =>
      if (cols =? 0)%Z then ZeroDivisionError
      else
        match ceil_int (float_of_int num_sensors / float_of_int cols)%float with
        | Raise e => Other e
        | OK rows => Return (rows, cols)
        end
  end.

(** The axes of the [i]-th panel: [axes[i // cols, i % cols]]. *)
Definition cell (cols i : Z) : Z * Z := ((i / cols)%Z, (i mod cols)%Z).

(** The index pairs of the cells the sensors are drawn in,
    [for i, sensor in enumerate(...)], and of the cells switched off,
    [for i in range(num_sensors, rows * cols)]. They index a
    two-dimensional array of axes only when the grid has at least two rows
    and two columns: [plt.subplots] squeezes a grid with a single row or
    column into a one-dimensional array, and the source repairs the case of
    one sensor only. *)
Definition sensor_cells (num_sensors cols : Z) : list (Z * Z) :=
  map (cell cols) (range 0 num_sensors).

Definition off_cells (num_sensors rows cols : Z) : list (Z * Z) :=
  map (cell cols) (range num_sensors (rows * cols)).

(** The grid is right for [n] sensors: [cols] is the least integer whose
    square reaches [n], and [rows] the least number of rows of [cols] cells
    that hold [n] panels. *)
Definition grid_fits (n rows cols : Z) : bool :=
  ((cols - 1) * (cols - 1) <? n)%Z && (n <=? cols * cols)%Z &&
  ((rows - 1) * cols <? n)%Z && (n <=? rows * cols)%Z.

Definition subplot_grid_fits (n : Z) : bool :=
  match subplot_grid n with
  | Return (rows, cols) => grid_fits n rows cols
  | _ => false
  end.

(** ** Panel titles *)

(** String methods. *)
Module PyStr.

(** [s.split(sep)] for a separator [sep] of one character: the pieces of
    [s] between the separators, at least one piece. *)
Fixpoint split (sep : Ascii.ascii) (s : string) : list string :=
  match s with
  | EmptyString => [EmptyString]
  | String c s' =>
      if Ascii.eqb c sep then EmptyString :: split sep s'
      else
        match split sep s' with
        | piece :: pieces => String c piece :: pieces
        | [] => [String c EmptyString]
        end
  end.

(** [sep in s]. *)
Fixpoint contains (sep : Ascii.ascii) (s : string) : bool :=
  match s with
  | EmptyString => false
  | String c s' => Ascii.eqb c sep || contains sep s'
  end.

(** [sep.join(pieces)]. *)
Fixpoint join (sep : Ascii.ascii) (pieces : list string) : string :=
  match pieces with
  | [] => EmptyString
  | [piece] => piece
  | piece :: rest => (piece ++ String sep (join sep rest))%string
  end.

End PyStr.

(** [l[-1]]: the last item, [IndexError] on an empty list. *)
Definition last_item (l : list string) : result string :=
  match l with
  | [] => Raise IndexError
  | _ :: _ => OK (last l EmptyString)
  end.

(** The title of a panel of [plot_time_series_data_sensor], before
    [strip()]: [title.split('|')[-1] if '|' in title else title]. *)
Definition new_title (title : string) : result string :=
  if PyStr.contains "|"%char title
  then last_item (PyStr.split "|"%char title)
  else OK title.

(** The facet label of [plot_time_series_data_iterative]:
    [a.text.split("=")[-1]]. *)
Definition annotation_text (text : string) : result string :=
  last_item (PyStr.split "="%char text).

(** [t] is what follows the last [sep] of [s], or all of [s] when it has
    no [sep]. *)
Definition after_last (sep : Ascii.ascii) (s t : string) : Prop :=
  PyStr.contains sep t = false /\
  ((PyStr.contains sep s = false /\ t = s) \/
   exists before : string, s = (before ++ String sep t)%string).

(** ** The rows [plot_best_k] marks *)

(** [p] is the cluster count and the score [f] of a row of [df] whose score
    is the best of the table (the largest when [higher], else the
    smallest), and whose cluster count is the smallest among the rows with
    that score. *)
Definition best_row (higher : bool) (f : Row -> Q) (df : DataFrame)
  (p : Z * Q) : Prop :=
  exists row0,
    In row0 df /\ p = (Number_of_Clusters row0, f row0) /\
    (forall row, In row df ->
                 if higher then f row <= f row0 else f row0 <= f row) /\
    (forall row, In row df -> f row == f row0 ->
                 (Number_of_Clusters row0 <= Number_of_Clusters row)%Z).

(** ** The colour of a marker of [plot_map_gradient_color] *)

(** [base_color = colors[cluster % len(colors)]], then
    [get_gradient_color(base_color, value, group_max_value)] for a row of
    the cluster. *)
Definition gradient_color (getcolor : string -> result RGB) (cluster : Z)
  (value group_max_value : float) : result RGB :=
  base_color <- PlotMapGradientColor.base_color cluster ;;
  get_gradient_color getcolor base_color value group_max_value.

(** A colour with every channel between 0 and 255. *)
Definition rgb_in_range (c : RGB) : Prop :=
  let '(r, g, b) := c in
  (0 <= r <= 255)%Z /\ (0 <= g <= 255)%Z /\ (0 <= b <= 255)%Z.

(** * Properties *)

Example select_by_extremum_ex :
  select_by_extremum [3; 5; 5; 2]%Q true = OK 1%nat.
Proof. reflexivity. Qed.

Example find_elbow_ex :
  find_elbow [10; 9; 8; 2; 1]%Q = OK 2%nat.
Proof. vm_compute. reflexivity. Qed.

Example get_gradient_color_ex :
  get_gradient_color ImageColor_getcolor "white" 3 7 = OK (254, 254, 254)%Z.
Proof. vm_compute. reflexivity. Qed.

Example marker_ex : PlotMap.marker 23 = OK ("purple", "star")%string.
Proof. vm_compute. reflexivity. Qed.

(** ** Comparisons *)

Lemma gt_true (a b : Q) : Py.gt a b = true <-> b < a.
Proof.
  unfold Py.gt. rewrite negb_true_iff, <- not_true_iff_false, Qle_bool_iff.
  split; [apply Qnot_le_lt | apply Qlt_not_le].
Qed.

Lemma gt_false (a b : Q) : Py.gt a b = false <-> a <= b.
Proof.
  unfold Py.gt. rewrite negb_false_iff. apply Qle_bool_iff.
Qed.

Lemma lt_true (a b : Q) : Py.lt a b = true <-> a < b.
Proof. apply (gt_true b a). Qed.

Lemma lt_false (a b : Q) : Py.lt a b = false <-> b <= a.
Proof. apply (gt_false b a). Qed.

(** ** The builtins [max], [min] and [index] *)

Section Builtins.

Local Open Scope Q_scope.

(** The running maximum never decreases and dominates the rest of the list. *)
Lemma max_loop_ge (l : list Q) :
  forall m, m <= Py.max_loop m l /\ Forall (fun x => x <= Py.max_loop m l) l.
Proof.
  induction l as [|x l IH]; intros m; simpl.
  - split; [apply Qle_refl | constructor].
  - destruct (Py.gt x m) eqn:E.
    + destruct (IH x) as [H1 H2]. apply gt_true in E.
      split; [|constructor; assumption].
      apply Qle_trans with x; [apply Qlt_le_weak|]; assumption.
    + destruct (IH m) as [H1 H2]. apply gt_false in E.
      split; [assumption|constructor; [|assumption]].
      apply Qle_trans with m; assumption.
Qed.

Lemma min_loop_le (l : list Q) :
  forall m, Py.min_loop m l <= m /\ Forall (fun x => Py.min_loop m l <= x) l.
Proof.
  induction l as [|x l IH]; intros m; simpl.
  - split; [apply Qle_refl | constructor].
  - destruct (Py.lt x m) eqn:E.
    + destruct (IH x) as [H1 H2]. apply lt_true in E.
      split; [|constructor; assumption].
      apply Qle_trans with x; [|apply Qlt_le_weak]; assumption.
    + destruct (IH m) as [H1 H2]. apply lt_false in E.
      split; [assumption|constructor; [|assumption]].
      apply Qle_trans with m; assumption.
Qed.

(** The result of the loop is one of the items it has seen. *)
Lemma max_loop_In (l : list Q) :
  forall m, In (Py.max_loop m l) (m :: l).
Proof.
  induction l as [|x l IH]; intros m; simpl.
  - now left.
  - destruct (Py.gt x m); destruct (IH x) as [H|H], (IH m) as [H'|H'];
      simpl in *; auto.
Qed.

Lemma min_loop_In (l : list Q) :
  forall m, In (Py.min_loop m l) (m :: l).
Proof.
  induction l as [|x l IH]; intros m; simpl.
  - now left.
  - destruct (Py.lt x m); destruct (IH x) as [H|H], (IH m) as [H'|H'];
      simpl in *; auto.
Qed.

(** [index] finds the first position whose item equals [x]. *)
Lemma index_OK (l : list Q) (x : Q) :
  forall i, Py.index l x = OK i ->
    (i < length l)%nat /\ nth i l 0 == x /\
    forall j, (j < i)%nat -> ~ nth j l 0 == x.
Proof.
  induction l as [|y l IH]; intros i; simpl; [discriminate|].
  destruct (Qeq_bool y x) eqn:E.
  - intros [= <-]. apply Qeq_bool_iff in E.
    repeat split; [lia | assumption | intros j Hj; lia].
  - destruct (Py.index l x) as [i'|e] eqn:Ei; simpl; [|discriminate].
    intros [= <-]. destruct (IH i' eq_refl) as (H1 & H2 & H3).
    repeat split; [lia | assumption |].
    intros [|j] Hj; simpl.
    + intros H. apply Qeq_bool_iff in H. congruence.
    + apply H3. lia.
Qed.

Lemma index_In (l : list Q) (x : Q) :
  In x l -> exists i, Py.index l x = OK i.
Proof.
  induction l as [|y l IH]; simpl; [contradiction|].
  intros H. destruct (Qeq_bool y x) eqn:E; [now exists 0%nat|].
  destruct H as [->|H].
  - rewrite (proj2 (Qeq_bool_iff x x) (Qeq_refl x)) in E. discriminate.
  - destruct (IH H) as [i ->]. now exists (S i).
Qed.

End Builtins.

(** ** Selection by extremum *)

Section SelectByExtremum.

Local Open Scope Q_scope.

Lemma Forall_nth_Q (P : Q -> Prop) (l : list Q) :
  Forall P l -> forall j, (j < length l)%nat -> P (nth j l 0).
Proof.
  intros H j Hj. rewrite Forall_forall in H. apply H, nth_In, Hj.
Qed.

Lemma select_max_first (values : list Q) :
  values <> [] ->
  exists i, select_by_extremum values true = OK i /\
            first_index (maximum_at values) i.
Proof.
  destruct values as [|x l]; [congruence|intros _].
  unfold select_by_extremum, Py.max, bind.
  set (m := Py.max_loop x l).
  destruct (index_In (x :: l) m (max_loop_In l x)) as [i Hi].
  exists i. split; [exact Hi|].
  destruct (index_OK _ _ _ Hi) as (Hlt & Heq & Hfirst).
  assert (Hall : forall j, (j < length (x :: l))%nat -> nth j (x :: l) 0 <= m).
  { apply (Forall_nth_Q (fun y => y <= m)).
    destruct (max_loop_ge l x) as [H1 H2]. constructor; assumption. }
  split.
  - split; [exact Hlt|]. intros j Hj. rewrite Heq. now apply Hall.
  - intros i' Hi' [Hlt' Hmax]. apply (Hfirst i' Hi').
    apply Qle_antisym; [now apply Hall|].
    rewrite <- Heq. now apply Hmax.
Qed.

Lemma select_min_first (values : list Q) :
  values <> [] ->
  exists i, select_by_extremum values false = OK i /\
            first_index (minimum_at values) i.
Proof.
  destruct values as [|x l]; [congruence|intros _].
  unfold select_by_extremum, Py.min, bind.
  set (m := Py.min_loop x l).
  destruct (index_In (x :: l) m (min_loop_In l x)) as [i Hi].
  exists i. split; [exact Hi|].
  destruct (index_OK _ _ _ Hi) as (Hlt & Heq & Hfirst).
  assert (Hall : forall j, (j < length (x :: l))%nat -> m <= nth j (x :: l) 0).
  { apply (Forall_nth_Q (fun y => m <= y)).
    destruct (min_loop_le l x) as [H1 H2]. constructor; assumption. }
  split.
  - split; [exact Hlt|]. intros j Hj. rewrite Heq. now apply Hall.
  - intros i' Hi' [Hlt' Hmin]. apply (Hfirst i' Hi').
    apply Qle_antisym; [|now apply Hall].
    rewrite <- Heq. now apply Hmin.
Qed.

(** The selected index is a position of the list. *)
Lemma select_by_extremum_lt (values : list Q) (b : bool) (i : nat) :
  select_by_extremum values b = OK i -> (i < length values)%nat.
Proof.
  unfold select_by_extremum, Py.max, Py.min, bind.
  destruct values as [|x l]; destruct b; try discriminate;
    intros H; apply index_OK in H; apply H.
Qed.

Lemma select_by_extremum_OK (values : list Q) (b : bool) :
  values <> [] ->
  exists i, select_by_extremum values b = OK i /\ (i < length values)%nat.
Proof.
  intros Hne. destruct b.
  - destruct (select_max_first values Hne) as (i & Hi & [[Hlt _] _]). eauto.
  - destruct (select_min_first values Hne) as (i & Hi & [[Hlt _] _]). eauto.
Qed.

End SelectByExtremum.

(** C2. For every non-empty sequence of values, [select_by_extremum] with
    [is_higher_better = true] returns the first index whose value is at
    least every value of the sequence, and with [is_higher_better = false]
    the first index whose value is at most every value; on [3, 5, 5, 2] with
    [true] it returns index 1. *)
Theorem select_by_extremum_first_extremum (values : list Q) :
  values <> [] ->
  (exists i, select_by_extremum values true = OK i /\
             first_index (maximum_at values) i) /\
  (exists i, select_by_extremum values false = OK i /\
             first_index (minimum_at values) i) /\
  select_by_extremum [3; 5; 5; 2] true = OK 1%nat.
Proof.
  intros Hne. split; [|split].
  - now apply select_max_first.
  - now apply select_min_first.
  - reflexivity.
Qed.

Lemma select_by_extremum_first_extremum_witness :
  (exists i, select_by_extremum [3; 5; 5; 2] true = OK i /\
             first_index (maximum_at [3; 5; 5; 2]) i) /\
  (exists i, select_by_extremum [3; 5; 5; 2] false = OK i /\
             first_index (minimum_at [3; 5; 5; 2]) i) /\
  select_by_extremum [3; 5; 5; 2] true = OK 1%nat.
Proof.
  apply (select_by_extremum_first_extremum [3; 5; 5; 2]). discriminate.
Defined.

(** C4. [select_by_extremum] fails exactly when the sequence is empty (the
    builtin [max] or [min] raises [ValueError] on an empty sequence, the
    error the specification calls EmptyInputError); on every non-empty
    sequence it returns an index of the sequence. *)
Theorem select_by_extremum_fails_iff_empty
  (values : list Q) (is_higher_better : bool) :
  (select_by_extremum values is_higher_better = Raise ValueError
   <-> values = []) /\
  ((exists i, select_by_extremum values is_higher_better = OK i /\
              (i < length values)%nat)
   <-> values <> []).
Proof.
  split; split.
  - destruct values as [|x l]; [reflexivity|]. intros H.
    destruct (select_by_extremum_OK (x :: l) is_higher_better) as (i & Hi & _);
      congruence.
  - intros ->. now destruct is_higher_better.
  - intros (i & Hi & _) ->. now destruct is_higher_better.
  - apply select_by_extremum_OK.
Qed.

(** ** Elbow detection *)

Section PerpendicularDistance.

Local Open Scope Q_scope.

Lemma line_norm_sq_pos (values : list Q) :
  (2 <= length values)%nat -> 0 < line_norm_sq values.
Proof.
  intros H. unfold line_norm_sq.
  set (x2 := inject_Z (Z.of_nat (length values - 1))).
  set (dy := nth (length values - 1) values 0 - nth 0 values 0).
  assert (Hx : inject_Z 1 <= x2) by (unfold x2; rewrite <- Zle_Qle; lia).
  change (inject_Z 1) with 1 in Hx. nra.
Qed.

Lemma perp_dist_nonneg (values : list Q) (i : nat) :
  (0 <= perp_dist values i)%R.
Proof.
  unfold perp_dist, Rdiv. apply Rmult_le_pos; [apply Rabs_pos|].
  destruct (Rle_lt_or_eq_dec _ _ (sqrt_pos (Q2R (line_norm_sq values))))
    as [Hp|He].
  - left. now apply Rinv_0_lt_compat.
  - rewrite <- He, Rinv_0. apply Rle_refl.
Qed.

(** The rational [perp_dist_sq] is the square of the distance. *)
Lemma perp_dist_sq_spec (values : list Q) (i : nat) :
  (2 <= length values)%nat ->
  Q2R (perp_dist_sq values i) = (perp_dist values i * perp_dist values i)%R.
Proof.
  intros H. pose proof (line_norm_sq_pos values H) as Hn.
  unfold perp_dist_sq, perp_dist, Qdiv.
  assert (HN : (0 < Q2R (line_norm_sq values))%R).
  { replace 0%R with (Q2R 0) by apply RMicromega.Q2R_0. now apply Qlt_Rlt. }
  rewrite !Q2R_mult, Q2R_inv by (intros E; rewrite E in Hn; discriminate).
  set (c := Q2R (line_cross values i)) in *.
  set (N := Q2R (line_norm_sq values)) in *.
  assert (Hs : (sqrt N * sqrt N = N)%R) by (apply sqrt_sqrt; now left).
  assert (Hs0 : (sqrt N <> 0)%R).
  { intros E. rewrite E, Rmult_0_l in Hs. rewrite <- Hs in HN.
    exact (Rlt_irrefl _ HN). }
  assert (Hc : (Rabs c * Rabs c = c * c)%R).
  { fold (Rsqr (Rabs c)). fold (Rsqr c). symmetry. apply Rsqr_abs. }
  transitivity ((Rabs c * Rabs c) / (sqrt N * sqrt N))%R.
  - rewrite Hc, Hs. reflexivity.
  - field. exact Hs0.
Qed.

(** Distances and squared distances order the points alike. *)
Lemma perp_dist_le_iff (values : list Q) (i j : nat) :
  (2 <= length values)%nat ->
  (perp_dist values i <= perp_dist values j)%R <->
  perp_dist_sq values i <= perp_dist_sq values j.
Proof.
  intros H. split.
  - intros Hle. apply Rle_Qle. rewrite !perp_dist_sq_spec by assumption.
    apply Rmult_le_compat; try apply perp_dist_nonneg; assumption.
  - intros Hle. apply Qle_Rle in Hle.
    rewrite !perp_dist_sq_spec in Hle by assumption.
    apply Rsqr_incr_0; try apply perp_dist_nonneg. exact Hle.
Qed.

End PerpendicularDistance.

Section FindElbow.

Local Open Scope Q_scope.

Variable f : nat -> Q.
Variable a : nat.

(** The scan keeps the invariant: after the candidates [s, s+1, ..] are
    consumed, the current index is the first maximum of what was seen. *)
Lemma argmax_first_seq (n : nat) :
  forall best s,
    first_max_below f a best s ->
    first_max_below f a (argmax_first f best (seq s n)) (s + n).
Proof.
  induction n as [|n IH]; intros best s (Hr & Hmax & Hfst); simpl.
  - rewrite Nat.add_0_r. repeat split; try apply Hr; assumption.
  - rewrite <- Nat.add_succ_comm. apply IH.
    destruct (Py.gt (f s) (f best)) eqn:E.
    + apply gt_true in E. repeat split; try lia.
      * intros j Hj. destruct (Nat.eq_dec j s) as [->|Hne];
          [apply Qle_refl|].
        apply Qle_trans with (f best);
          [apply Hmax; lia | now apply Qlt_le_weak].
      * intros j Hj. apply Qle_lt_trans with (f best);
          [apply Hmax; lia | assumption].
    + apply gt_false in E. repeat split; try lia.
      * intros j Hj. destruct (Nat.eq_dec j s) as [->|Hne];
          [assumption | apply Hmax; lia].
      * assumption.
Qed.

End FindElbow.

Lemma find_elbow_first_elbow (values : list Q) :
  (3 <= length values)%nat ->
  exists i, find_elbow values = OK i /\ first_index (elbow_at values) i.
Proof.
  intros Hlen. unfold find_elbow.
  destruct (Nat.ltb_spec (length values) 3) as [Hlt|_]; [lia|].
  eexists. split; [reflexivity|].
  destruct (argmax_first_seq (perp_dist_sq values) 1 (length values - 3) 1 2)
    as (Hr & Hmax & Hfst).
  { repeat split; try lia.
    intros j Hj. replace j with 1%nat by lia. apply Qle_refl. }
  set (r := argmax_first _ _ _) in *.
  split; [split|].
  - unfold interior. lia.
  - intros j Hj. apply perp_dist_le_iff; [lia|].
    apply Hmax. unfold interior in Hj. lia.
  - intros i' Hi' [Hint Hbest]. unfold interior in Hint.
    apply (Qlt_not_le (perp_dist_sq values i') (perp_dist_sq values r)).
    + apply Hfst. lia.
    + apply perp_dist_le_iff; [lia|]. apply Hbest. unfold interior. lia.
Qed.

(** C3. For every sequence of at least three values, [find_elbow] returns
    the first interior index whose perpendicular distance to the line
    through the first and the last point is largest among the interior
    points; on [10, 9, 8, 2, 1] it returns index 2. *)
Theorem find_elbow_first_max_distance (values : list Q) :
  (3 <= length values)%nat ->
  (exists i, find_elbow values = OK i /\ first_index (elbow_at values) i) /\
  find_elbow [10; 9; 8; 2; 1] = OK 2%nat.
Proof.
  intros Hlen. split.
  - now apply find_elbow_first_elbow.
  - vm_compute. reflexivity.
Qed.

Lemma find_elbow_first_max_distance_witness :
  (exists i, find_elbow [10; 9; 8; 2; 1] = OK i /\
             first_index (elbow_at [10; 9; 8; 2; 1]) i) /\
  find_elbow [10; 9; 8; 2; 1] = OK 2%nat.
Proof.
  apply (find_elbow_first_max_distance [10; 9; 8; 2; 1]). simpl. lia.
Defined.

(** C5. [find_elbow] fails with [InsufficientDataError] exactly when fewer
    than three points are supplied; on every sequence of at least three
    points it returns an interior index. *)
Theorem find_elbow_fails_iff_short (values : list Q) :
  (find_elbow values = Raise InsufficientDataError
   <-> (length values < 3)%nat) /\
  ((exists i, find_elbow values = OK i /\ interior values i)
   <-> (3 <= length values)%nat).
Proof.
  split; split.
  - unfold find_elbow.
    destruct (Nat.ltb_spec (length values) 3); [trivial|discriminate].
  - intros H. unfold find_elbow.
    destruct (Nat.ltb_spec (length values) 3); [reflexivity|lia].
  - intros (i & Hi & _). unfold find_elbow in Hi.
    destruct (Nat.ltb_spec (length values) 3); [discriminate|assumption].
  - intros H. destruct (find_elbow_first_elbow values H) as (i & Hi & [[Hint _] _]).
    eauto.
Qed.

(** ** Sorting the table *)

Section SortValues.

Local Open Scope Z_scope.

Lemma insert_row_perm (r : Row) (df : DataFrame) :
  Permutation (insert_row r df) (r :: df).
Proof.
  induction df as [|r' df IH]; simpl; [reflexivity|].
  destruct (Number_of_Clusters r <=? Number_of_Clusters r'); [reflexivity|].
  rewrite IH. apply perm_swap.
Qed.

Lemma sort_values_perm (df : DataFrame) : Permutation (sort_values df) df.
Proof.
  induction df as [|r df IH]; simpl; [reflexivity|].
  rewrite insert_row_perm. now constructor.
Qed.

Lemma sort_values_length (df : DataFrame) :
  length (sort_values df) = length df.
Proof. apply Permutation_length, sort_values_perm. Qed.

Lemma insert_row_from (r : Row) (df : DataFrame) :
  forall b, b <= Number_of_Clusters r ->
    non_decreasing_from b (column Number_of_Clusters df) = true ->
    non_decreasing_from b (column Number_of_Clusters (insert_row r df)) = true.
Proof.
  induction df as [|r' df IH]; intros b Hb; simpl.
  - intros _. rewrite andb_true_r. now apply Z.leb_le.
  - rewrite andb_true_iff. intros [H1 H2].
    destruct (Z.leb_spec (Number_of_Clusters r) (Number_of_Clusters r')) as [Hle|Hgt];
      simpl.
    + rewrite !andb_true_iff. repeat split; try (apply Z.leb_le; lia).
      exact H2.
    + rewrite H1. simpl. apply IH; [lia|assumption].
Qed.

Lemma sort_values_sorted (df : DataFrame) :
  non_decreasing (column Number_of_Clusters (sort_values df)) = true.
Proof.
  induction df as [|r df IH]; simpl; [reflexivity|].
  destruct (sort_values df) as [|r1 s]; simpl in *; [reflexivity|].
  destruct (Z.leb_spec (Number_of_Clusters r) (Number_of_Clusters r1)) as [Hle|Hgt];
    simpl.
  - rewrite IH, andb_true_r. now apply Z.leb_le.
  - apply insert_row_from; [lia|assumption].
Qed.

Lemma non_decreasing_from_tail (k : Z) (ks : list Z) :
  non_decreasing_from k ks = true -> non_decreasing ks = true.
Proof.
  destruct ks as [|k' ks]; simpl; [reflexivity|].
  rewrite andb_true_iff. tauto.
Qed.

Lemma increasing_from_non_decreasing (ks : list Z) :
  forall k, increasing_from k ks = true -> non_decreasing_from k ks = true.
Proof.
  induction ks as [|k' ks IH]; intros k; simpl; [reflexivity|].
  rewrite !andb_true_iff. intros [H1 H2]. split; [|now apply IH].
  apply Z.leb_le. apply Z.ltb_lt in H1. lia.
Qed.

Lemma strictly_increasing_non_decreasing (ks : list Z) :
  strictly_increasing ks = true -> non_decreasing ks = true.
Proof.
  destruct ks as [|k ks]; simpl; [reflexivity|].
  apply increasing_from_non_decreasing.
Qed.

(** Sorting leaves a sorted table as it is. *)
Lemma sort_values_sorted_id (df : DataFrame) :
  non_decreasing (column Number_of_Clusters df) = true ->
  sort_values df = df.
Proof.
  induction df as [|r df IH]; simpl; [reflexivity|].
  intros H. rewrite IH by (eapply non_decreasing_from_tail; eassumption).
  destruct df as [|r' df]; simpl in *; [reflexivity|].
  apply andb_true_iff in H. destruct H as [H _]. now rewrite H.
Qed.

Lemma sort_values_idempotent (df : DataFrame) :
  sort_values (sort_values df) = sort_values df.
Proof. apply sort_values_sorted_id, sort_values_sorted. Qed.

End SortValues.

(** ** Ranges of integers *)

Section Ranges.

Local Open Scope Z_scope.

Lemma range_In (a b i : Z) : In i (range a b) <-> a <= i < b.
Proof.
  unfold range. rewrite in_map_iff. split.
  - intros (k & <- & Hk). apply in_seq in Hk. lia.
  - intros H. exists (Z.to_nat (i - a)). split; [lia|].
    apply in_seq. lia.
Qed.

Lemma range_length (a b : Z) : length (range a b) = Z.to_nat (b - a).
Proof. unfold range. now rewrite length_map, length_seq. Qed.

Lemma NoDup_map_inj {A B : Type} (f : A -> B) (l : list A) :
  (forall x y, f x = f y -> x = y) -> NoDup l -> NoDup (map f l).
Proof.
  intros Hf. induction 1 as [|x l Hx Hl IH]; simpl; constructor; [|exact IH].
  rewrite in_map_iff. intros (y & Hy & Hin). apply Hf in Hy. now subst.
Qed.

Lemma range_NoDup (a b : Z) : NoDup (range a b).
Proof.
  unfold range. apply NoDup_map_inj; [|apply seq_NoDup].
  intros x y H. lia.
Qed.

Lemma map_seq_from {A : Type} (l k : nat) :
  forall f : nat -> A,
    map f (seq k l) = map (fun i => f (k + i)%nat) (seq 0 l).
Proof.
  revert k. induction l as [|l IH]; intros k f; simpl; [reflexivity|].
  rewrite Nat.add_0_r. f_equal.
  rewrite (IH (S k) f), (IH 1%nat (fun i => f (k + i)%nat)).
  apply map_ext. intros i. f_equal. lia.
Qed.

Lemma range_app (a b c : Z) :
  a <= b <= c -> range a b ++ range b c = range a c.
Proof.
  intros H. unfold range.
  replace (Z.to_nat (c - a)) with (Z.to_nat (b - a) + Z.to_nat (c - b))%nat
    by lia.
  rewrite seq_app, map_app. f_equal. simpl.
  rewrite (map_seq_from (Z.to_nat (c - b)) (Z.to_nat (b - a))).
  apply map_ext. intros i. lia.
Qed.

End Ranges.

(** ** Sorting and the order of the rows *)

Section RowOrder.

Local Open Scope Z_scope.

(** Two rows with different cluster counts can be inserted in either
    order. *)
Lemma insert_row_comm (r1 r2 : Row) (df : DataFrame) :
  Number_of_Clusters r1 <> Number_of_Clusters r2 ->
  insert_row r1 (insert_row r2 df) = insert_row r2 (insert_row r1 df).
Proof.
  intros Hne. induction df as [|a df IH]; simpl;
    repeat (match goal with
            | |- context [(?x <=? ?y)%Z] => destruct (Z.leb_spec x y)
            end; simpl);
    try reflexivity; try lia.
  now rewrite IH.
Qed.

Lemma sort_values_order (df1 df2 : DataFrame) :
  Permutation df1 df2 ->
  NoDup (column Number_of_Clusters df1) ->
  sort_values df1 = sort_values df2.
Proof.
  induction 1 as [|x l l' Hp IH|x y l|l l' l'' Hp1 IH1 Hp2 IH2];
    simpl; intros Hnd.
  - reflexivity.
  - inversion Hnd; subst. now rewrite IH.
  - inversion Hnd as [|? ? Hy Hnd']; subst.
    apply insert_row_comm. intros E. apply Hy. left. now symmetry.
  - rewrite IH1 by assumption. apply IH2.
    eapply Permutation_NoDup; [|exact Hnd].
    unfold column. now apply Permutation_map.
Qed.

End RowOrder.

(** ** The x axis of the panels *)

Section XAxis.

Local Open Scope Z_scope.

Lemma fold_min_spec (ks : list Z) :
  forall k, In (fold_left Z.min ks k) (k :: ks) /\
            Forall (fun x => fold_left Z.min ks k <= x) (k :: ks).
Proof.
  induction ks as [|k' ks IH]; intros k; simpl.
  - split; [now left|]. repeat constructor. lia.
  - destruct (IH (Z.min k k')) as [Hin Hall]. split.
    + destruct Hin as [Hin|Hin]; [|now right; right].
      rewrite <- Hin. destruct (Z.min_spec k k') as [[_ ->]|[_ ->]]; auto.
    + inversion Hall as [|? ? Hm Hrest]; subst.
      repeat constructor; try assumption; lia.
Qed.

Lemma fold_max_spec (ks : list Z) :
  forall k, In (fold_left Z.max ks k) (k :: ks) /\
            Forall (fun x => x <= fold_left Z.max ks k) (k :: ks).
Proof.
  induction ks as [|k' ks IH]; intros k; simpl.
  - split; [now left|]. repeat constructor. lia.
  - destruct (IH (Z.max k k')) as [Hin Hall]. split.
    + destruct Hin as [Hin|Hin]; [|now right; right].
      rewrite <- Hin. destruct (Z.max_spec k k') as [[_ ->]|[_ ->]]; auto.
    + inversion Hall as [|? ? Hm Hrest]; subst.
      repeat constructor; try assumption; lia.
Qed.

Lemma range_cons (a b : Z) : a < b -> range a b = a :: range (a + 1) b.
Proof.
  intros H. rewrite <- (range_app a (a + 1) b) by lia.
  unfold range at 1. replace (a + 1 - a) with 1 by lia. simpl.
  now rewrite Z.add_0_r.
Qed.

Lemma last_cons_default (ks : list Z) :
  forall a d, last (a :: ks) d = last ks a.
Proof.
  induction ks as [|x ks IH]; intros a d; [reflexivity|].
  change (last (a :: x :: ks) d) with (last (x :: ks) d).
  now rewrite (IH x d), (IH x a).
Qed.

Lemma last_In (ks : list Z) : forall k, In (last ks k) (k :: ks).
Proof.
  induction ks as [|x ks IH]; intros k; [now left|].
  rewrite (last_cons_default ks x k). right. apply IH.
Qed.

(** Along a strictly increasing sequence the last item is at least the
    first plus the number of steps, every item lies between the two, and
    when the last item is exactly that far the sequence is a range. *)
Lemma increasing_from_last (ks : list Z) :
  forall k, increasing_from k ks = true ->
    k + Z.of_nat (length ks) <= last ks k /\
    Forall (fun x => k <= x <= last ks k) (k :: ks) /\
    (last ks k = k + Z.of_nat (length ks) ->
     k :: ks = range k (last ks k + 1)).
Proof.
  induction ks as [|k' ks IH]; intros k.
  - intros _. simpl. split; [lia|]. split; [repeat constructor; lia|].
    intros _. rewrite range_cons by lia. f_equal.
    unfold range. now replace (k + 1 - (k + 1)) with 0 by lia.
  - cbn [increasing_from]. rewrite andb_true_iff. intros [Hlt Hinc].
    apply Z.ltb_lt in Hlt. destruct (IH k' Hinc) as (Hlen & Hall & Hrange).
    pose proof (last_cons_default ks k' k) as Hlast.
    rewrite Hlast. cbn [length]. split; [lia|]. split.
    + constructor; [lia|].
      eapply Forall_impl; [|exact Hall]. cbv beta. intros x Hx. lia.
    + intros Heq. assert (k' = k + 1) by lia. subst k'.
      rewrite range_cons by lia. f_equal. apply Hrange. lia.
Qed.

Lemma sorted_NoDup_increasing (ks : list Z) :
  forall k, non_decreasing_from k ks = true -> NoDup (k :: ks) ->
            increasing_from k ks = true.
Proof.
  induction ks as [|k' ks IH]; intros k; simpl; [reflexivity|].
  rewrite !andb_true_iff. intros [Hle Hrest] Hnd.
  apply Z.leb_le in Hle. inversion Hnd as [|? ? Hk Hnd']; subst. split.
  - apply Z.ltb_lt. assert (k <> k') by (intros ->; apply Hk; now left). lia.
  - now apply IH.
Qed.

(** The ends of the x axis are the first and the last cluster count of the
    sorted table. *)
Lemma x_axis_sorted (df : DataFrame) (k0 : Z) (rest : list Z) :
  column Number_of_Clusters (sort_values df) = k0 :: rest ->
  increasing_from k0 rest = true ->
  x_axis df = Some (range k0 (last rest k0 + 1)).
Proof.
  intros Hs Hinc.
  assert (Hperm : Permutation (column Number_of_Clusters df) (k0 :: rest)).
  { rewrite <- Hs. unfold column. apply Permutation_map.
    symmetry. apply sort_values_perm. }
  destruct (increasing_from_last rest k0 Hinc) as (_ & Hall & _).
  rewrite Forall_forall in Hall.
  pose proof (last_In rest k0) as Hlast.
  unfold x_axis, np_min, np_max.
  destruct (column Number_of_Clusters df) as [|a ks] eqn:E.
  { apply Permutation_nil in Hperm. discriminate. }
  destruct (fold_min_spec ks a) as [Hmin_in Hmin].
  destruct (fold_max_spec ks a) as [Hmax_in Hmax].
  rewrite Forall_forall in Hmin, Hmax.
  assert (Hk0 : In k0 (a :: ks))
    by (eapply Permutation_in; [symmetry; exact Hperm | now left]).
  assert (HL : In (last rest k0) (a :: ks))
    by (eapply Permutation_in; [symmetry; exact Hperm | exact Hlast]).
  pose proof (Hall _ (Permutation_in _ Hperm Hmin_in)) as H1.
  pose proof (Hall _ (Permutation_in _ Hperm Hmax_in)) as H2.
  pose proof (Hmin _ Hk0) as H3. pose proof (Hmax _ HL) as H4.
  cbv beta in *.
  replace (fold_left Z.min ks a) with k0 by lia.
  replace (fold_left Z.max ks a) with (last rest k0) by lia.
  reflexivity.
Qed.

(** The ends of the x axis do not depend on the order of the rows. *)
Lemma np_min_perm (ks ks' : list Z) :
  Permutation ks ks' -> np_min ks = np_min ks'.
Proof.
  intros Hp. destruct ks as [|a ks], ks' as [|b ks']; simpl.
  - reflexivity.
  - apply Permutation_nil in Hp. discriminate.
  - symmetry in Hp. apply Permutation_nil in Hp. discriminate.
  - destruct (fold_min_spec ks a) as [Hin Hall].
    destruct (fold_min_spec ks' b) as [Hin' Hall'].
    rewrite Forall_forall in Hall, Hall'.
    pose proof (Hall' _ (Permutation_in _ Hp Hin)) as H1.
    pose proof (Hall _ (Permutation_in _ (Permutation_sym Hp) Hin')) as H2.
    cbv beta in *. f_equal. lia.
Qed.

Lemma np_max_perm (ks ks' : list Z) :
  Permutation ks ks' -> np_max ks = np_max ks'.
Proof.
  intros Hp. destruct ks as [|a ks], ks' as [|b ks']; simpl.
  - reflexivity.
  - apply Permutation_nil in Hp. discriminate.
  - symmetry in Hp. apply Permutation_nil in Hp. discriminate.
  - destruct (fold_max_spec ks a) as [Hin Hall].
    destruct (fold_max_spec ks' b) as [Hin' Hall'].
    rewrite Forall_forall in Hall, Hall'.
    pose proof (Hall' _ (Permutation_in _ Hp Hin)) as H1.
    pose proof (Hall _ (Permutation_in _ (Permutation_sym Hp) Hin')) as H2.
    cbv beta in *. f_equal. lia.
Qed.

Lemma x_axis_perm (df1 df2 : DataFrame) :
  Permutation df1 df2 -> x_axis df1 = x_axis df2.
Proof.
  intros Hp. unfold x_axis.
  assert (Hk : Permutation (column Number_of_Clusters df1)
                           (column Number_of_Clusters df2))
    by (unfold column; now apply Permutation_map).
  now rewrite (np_min_perm _ _ Hk), (np_max_perm _ _ Hk).
Qed.

End XAxis.

(** ** [plot_subplot] and [plot_best_k] *)

Section PlotBestK.

Lemma column_length {A : Type} (f : Row -> A) (df : DataFrame) :
  length (column f df) = length df.
Proof. apply length_map. Qed.

Lemma getitem_lt {A : Type} (l : list A) (i : nat) :
  (i < length l)%nat ->
  exists a, Py.getitem l i = OK a /\ nth_error l i = Some a.
Proof.
  intros H. unfold Py.getitem.
  destruct (nth_error l i) as [a|] eqn:E; [eauto|].
  apply nth_error_None in E. lia.
Qed.

Lemma x_axis_Some (df : DataFrame) :
  df <> [] -> exists xs, x_axis df = Some xs.
Proof.
  destruct df as [|r df]; [congruence|intros _].
  unfold x_axis. simpl. eauto.
Qed.

(** Whether the x axis has one value per row can be told. *)
Lemma axis_matches_dec (df : DataFrame) :
  axis_matches df \/ ~ axis_matches df.
Proof.
  unfold axis_matches. destruct (x_axis df) as [xs|].
  - destruct (Nat.eq_dec (length xs) (length df)) as [E|N].
    + left. eauto.
    + right. intros (xs' & [= <-] & H). contradiction.
  - right. intros (xs' & H & _). discriminate.
Qed.

Lemma ax_plot_same (xs : list Z) (scores : list Q) :
  length xs = length scores -> ax_plot (Some xs) scores = OK tt.
Proof. intros H. unfold ax_plot. now rewrite H, Nat.eqb_refl. Qed.

Lemma ax_plot_mismatch (xs : list Z) (scores : list Q) :
  length xs <> length scores -> ax_plot (Some xs) scores = Raise ValueError.
Proof.
  intros H. unfold ax_plot.
  now destruct (Nat.eqb_spec (length xs) (length scores)).
Qed.

(** Once a row index inside the table is chosen and the x axis has one
    value per score, [plot_subplot] returns the pair found at that row. *)
Lemma plot_subplot_picks (df : DataFrame) (xs : list Z) (scores : list Q)
  (is_higher_better is_elbow : bool) (i : nat) :
  length scores = length df ->
  length xs = length df ->
  (if is_elbow then find_elbow scores
   else select_by_extremum scores is_higher_better) = OK i ->
  (i < length scores)%nat ->
  exists p, plot_subplot df (Some xs) scores is_higher_better is_elbow = OK p /\
            picks df scores i p.
Proof.
  intros Hlen Hxs Hsel Hi. unfold plot_subplot. rewrite Hsel. cbn [bind].
  destruct (getitem_lt (column Number_of_Clusters df) i) as (k & -> & Hk).
  { rewrite column_length. lia. }
  cbn [bind].
  destruct (getitem_lt scores i Hi) as (v & -> & Hv). cbn [bind].
  rewrite ax_plot_same by congruence. cbn [bind].
  exists (k, v). split; [reflexivity|]. split; assumption.
Qed.

Lemma plot_subplot_extremum (df : DataFrame) (xs : list Z) (scores : list Q)
  (b : bool) :
  length scores = length df -> length xs = length df ->
  (1 <= length df)%nat ->
  exists i p, select_by_extremum scores b = OK i /\
              plot_subplot df (Some xs) scores b false = OK p /\
              picks df scores i p.
Proof.
  intros Hlen Hxs Hne.
  destruct (select_by_extremum_OK scores b) as (i & Hi & Hlt).
  { destruct scores; [simpl in Hlen; lia | discriminate]. }
  destruct (plot_subplot_picks df xs scores b false i Hlen Hxs Hi Hlt)
    as (p & Hp & Hpk).
  eauto.
Qed.

Lemma plot_subplot_elbow (df : DataFrame) (xs : list Z) (scores : list Q)
  (b : bool) :
  length scores = length df -> length xs = length df ->
  (3 <= length df)%nat ->
  exists i p, find_elbow scores = OK i /\
              plot_subplot df (Some xs) scores b true = OK p /\
              picks df scores i p.
Proof.
  intros Hlen Hxs H3.
  destruct (find_elbow_first_elbow scores) as (i & Hi & [[Hint _] _]); [lia|].
  unfold interior in Hint.
  destruct (plot_subplot_picks df xs scores b true i Hlen Hxs Hi)
    as (p & Hp & Hpk); [lia|eauto].
Qed.

(** With an x axis of another length, a panel chosen by extremum fails
    when it is drawn. *)
Lemma plot_subplot_mismatch (df : DataFrame) (xs : list Z) (scores : list Q)
  (b : bool) :
  length scores = length df -> length xs <> length df ->
  (1 <= length df)%nat ->
  plot_subplot df (Some xs) scores b false = Raise ValueError.
Proof.
  intros Hlen Hxs Hne.
  destruct (select_by_extremum_OK scores b) as (i & Hi & Hlt).
  { destruct scores; [simpl in Hlen; lia | discriminate]. }
  unfold plot_subplot. rewrite Hi. cbn [bind].
  destruct (getitem_lt (column Number_of_Clusters df) i) as (k & -> & Hk).
  { rewrite column_length. lia. }
  cbn [bind].
  destruct (getitem_lt scores i Hlt) as (v & -> & Hv). cbn [bind].
  rewrite ax_plot_mismatch by congruence. reflexivity.
Qed.

(** On at least three rows and an x axis with one value per row, every
    panel succeeds, on the sorted table. *)
Lemma plot_best_k_complete (df : DataFrame) :
  (3 <= length df)%nat -> axis_matches df ->
  exists r, snd (plot_best_k df) = OK r /\ evaluation_of (sort_values df) r.
Proof.
  intros H3 (xs & Hx & Hxs). unfold plot_best_k. simpl snd. rewrite Hx.
  set (df' := sort_values df).
  assert (H3' : (3 <= length df')%nat)
    by (unfold df'; rewrite sort_values_length; exact H3).
  assert (Hxs' : length xs = length df')
    by (unfold df'; rewrite sort_values_length; exact Hxs).
  destruct (plot_subplot_extremum df' xs (column Silhouette_Score df') true)
    as (i_s & s & Hs & -> & Ps); [apply column_length | assumption | lia |].
  destruct (plot_subplot_elbow df' xs (column Distortion df') false)
    as (i_d & d & Hd & -> & Pd); [apply column_length | assumption | lia |].
  destruct (plot_subplot_extremum df' xs (column Davies_Bouldin df') false)
    as (i_b & b & Hb & -> & Pb); [apply column_length | assumption | lia |].
  destruct (plot_subplot_extremum df' xs (column Calinski_Harabasz df') true)
    as (i_c & c & Hc & -> & Pc); [apply column_length | assumption | lia |].
  simpl. eexists. split; [reflexivity|].
  exists i_s, i_d, i_b, i_c. simpl. tauto.
Qed.

(** An empty table fails in the first panel, in [max]. *)
Lemma plot_best_k_empty : snd (plot_best_k []) = Raise ValueError.
Proof. reflexivity. Qed.

(** A table with more or fewer rows than x values fails when the first
    panel is drawn. *)
Lemma plot_best_k_mismatch (df : DataFrame) :
  df <> [] -> ~ axis_matches df ->
  snd (plot_best_k df) = Raise ValueError.
Proof.
  intros Hne Hno. destruct (x_axis_Some df Hne) as [xs Hx].
  unfold plot_best_k. simpl snd. rewrite Hx.
  set (df' := sort_values df).
  assert (Hlen : length df' = length df) by apply sort_values_length.
  rewrite (plot_subplot_mismatch df' xs (column Silhouette_Score df') true).
  - reflexivity.
  - apply column_length.
  - rewrite Hlen. intros E. apply Hno. exists xs. now split.
  - rewrite Hlen. destruct df; [congruence | simpl; lia].
Qed.

(** One or two rows that fill their range: the silhouette panel succeeds
    and elbow detection fails. *)
Lemma plot_best_k_short (df : DataFrame) :
  (1 <= length df < 3)%nat -> axis_matches df ->
  snd (plot_best_k df) = Raise InsufficientDataError.
Proof.
  intros H (xs & Hx & Hxs). unfold plot_best_k. simpl snd. rewrite Hx.
  set (df' := sort_values df).
  assert (H' : (1 <= length df' < 3)%nat)
    by (unfold df'; rewrite sort_values_length; exact H).
  assert (Hxs' : length xs = length df')
    by (unfold df'; rewrite sort_values_length; exact Hxs).
  destruct (plot_subplot_extremum df' xs (column Silhouette_Score df') true)
    as (i_s & s & Hs & -> & Ps); [apply column_length | assumption | lia |].
  simpl. unfold plot_subplot, find_elbow. rewrite column_length.
  destruct (Nat.ltb_spec (length df') 3); [reflexivity|lia].
Qed.

(** A result is returned only for at least three rows and an x axis with
    one value per row. *)
Lemma plot_best_k_OK_inv (df : DataFrame) (r : BestK) :
  snd (plot_best_k df) = OK r -> (3 <= length df)%nat /\ axis_matches df.
Proof.
  intros Hr. destruct df as [|r0 df'] eqn:E.
  { rewrite plot_best_k_empty in Hr. discriminate. }
  rewrite <- E in *. assert (Hne : df <> []) by (rewrite E; discriminate).
  destruct (axis_matches_dec df) as [Ha|Hno].
  - split; [|exact Ha].
    destruct (Nat.lt_ge_cases (length df) 3) as [Hlt|]; [|assumption].
    rewrite plot_best_k_short in Hr; [discriminate| |exact Ha].
    rewrite E in *. simpl in *. lia.
  - rewrite (plot_best_k_mismatch df Hne Hno) in Hr. discriminate.
Qed.

Lemma picks_In (df : DataFrame) (scores : list Q) (i : nat) (p : Z * Q) :
  picks df scores i p -> In (fst p) (column Number_of_Clusters df).
Proof. intros [H _]. eapply nth_error_In, H. Qed.

Lemma evaluation_of_In (df : DataFrame) (r : BestK) :
  evaluation_of df r ->
  Forall (fun k => In k (column Number_of_Clusters df)) (chosen_ks r).
Proof.
  intros (i_s & i_d & i_b & i_c & (_ & Ps) & (_ & Pd) & (_ & Pb) & (_ & Pc)).
  repeat constructor; eapply picks_In; eassumption.
Qed.

(** With pairwise distinct cluster counts the order of the rows plays no
    part: the x axis and the sorted table are the same. *)
Lemma plot_best_k_order (df1 df2 : DataFrame) :
  Permutation df1 df2 ->
  NoDup (column Number_of_Clusters df1) ->
  plot_best_k df1 = plot_best_k df2.
Proof.
  intros Hp Hnd. unfold plot_best_k.
  now rewrite (sort_values_order df1 df2 Hp Hnd), (x_axis_perm df1 df2 Hp).
Qed.

Lemma fills_range_NoDup (df : DataFrame) :
  fills_range df -> NoDup (column Number_of_Clusters df).
Proof.
  intros (xs & Hx & Hp). eapply Permutation_NoDup; [exact Hp|].
  unfold x_axis in Hx.
  destruct (np_min (column Number_of_Clusters df)) as [a|]; [|discriminate].
  destruct (np_max (column Number_of_Clusters df)) as [b|]; [|discriminate].
  injection Hx as <-. apply range_NoDup.
Qed.

Lemma fills_range_axis (df : DataFrame) :
  fills_range df -> axis_matches df.
Proof.
  intros (xs & Hx & Hp). exists xs. split; [exact Hx|].
  rewrite (Permutation_length Hp). apply column_length.
Qed.

End PlotBestK.

(** C1, as stated, fails: a table with strictly increasing cluster counts
    and three rows, but with gaps between the counts (2, 4, 6), gets no
    pairs. The x axis [range(2, 7)] has five values for three scores and
    the first panel fails when it is drawn. *)
Lemma plot_best_k_rejects_gapped :
  well_formed gapped_scores /\
  snd (plot_best_k gapped_scores) = Raise ValueError.
Proof.
  split.
  - split; [reflexivity | simpl; lia].
  - vm_compute. reflexivity.
Qed.

(** C1, amended. On every evaluation table (cluster counts strictly
    increasing, at least three rows) whose cluster counts are consecutive
    integers, so that the x axis has one value per row, [plot_best_k]
    returns four (k, score) pairs, one per metric: the row is chosen by
    [select_by_extremum] with [is_higher_better = true] for the silhouette
    and the Calinski-Harabasz scores, with [is_higher_better = false] for
    the Davies-Bouldin scores, and by [find_elbow] for the distortions;
    each pair is the cluster count and the score at the chosen row, so
    every returned k is a value of the table's k column. *)
Theorem plot_best_k_four_pairs (df : DataFrame) :
  well_formed df ->
  axis_matches df ->
  exists r, snd (plot_best_k df) = OK r /\
            evaluation_of df r /\
            Forall (fun k => In k (column Number_of_Clusters df)) (chosen_ks r).
Proof.
  intros [Hinc H3] Hax.
  destruct (plot_best_k_complete df H3 Hax) as (r & Hr & Hev).
  rewrite sort_values_sorted_id in Hev
    by now apply strictly_increasing_non_decreasing.
  exists r. repeat split; try assumption. now apply evaluation_of_In.
Qed.

Lemma plot_best_k_four_pairs_witness :
  exists r, snd (plot_best_k sample_scores) = OK r /\
            evaluation_of sample_scores r /\
            Forall (fun k => In k (column Number_of_Clusters sample_scores))
                   (chosen_ks r).
Proof.
  apply (plot_best_k_four_pairs sample_scores).
  - split; [reflexivity | simpl; lia].
  - eexists. split; reflexivity.
Defined.

Example plot_best_k_sample :
  snd (plot_best_k sample_scores)
  = OK (mkBestK (3%Z, 0.55) (4%Z, 35) (4%Z, 0.7) (4%Z, 260)).
Proof. vm_compute. reflexivity. Qed.

(** C6, as stated, fails: a table whose cluster counts are out of order is
    malformed, yet [plot_best_k] does not reject it. It sorts the rows and
    returns a complete result. *)
Lemma plot_best_k_accepts_unsorted :
  malformed shuffled_scores /\
  snd (plot_best_k shuffled_scores)
  = OK (mkBestK (3%Z, 0.55) (3%Z, 60) (4%Z, 0.7) (4%Z, 260)).
Proof.
  split.
  - right. left. reflexivity.
  - vm_compute. reflexivity.
Qed.

(** C6, amended. [plot_best_k] checks nothing at the boundary; a table is
    rejected by the first step that cannot handle it. The empty table
    fails with the [ValueError] of [max]. A table that is not empty and has
    more or fewer rows than there are integers from its smallest to its
    largest cluster count (gaps between the counts, or repeated counts that
    change the number) fails with the [ValueError] of the first panel's
    plot. A table of one or two rows that passes this fails with
    [InsufficientDataError]. Every other table, that is, at least three
    rows and as many rows as integers from the smallest to the largest
    count, also when the rows are out of order, gets a complete result of
    four pairs; there is no partial result. *)
Theorem plot_best_k_rejects_iff (df : DataFrame) :
  (df = [] -> snd (plot_best_k df) = Raise ValueError) /\
  (df <> [] -> ~ axis_matches df ->
   snd (plot_best_k df) = Raise ValueError) /\
  ((1 <= length df < 3)%nat -> axis_matches df ->
   snd (plot_best_k df) = Raise InsufficientDataError) /\
  ((exists r, snd (plot_best_k df) = OK r)
   <-> (3 <= length df)%nat /\ axis_matches df).
Proof.
  split; [|split; [|split; [|split]]].
  - intros ->. apply plot_best_k_empty.
  - apply plot_best_k_mismatch.
  - apply plot_best_k_short.
  - intros [r Hr]. now apply (plot_best_k_OK_inv df r).
  - intros [H3 Hax].
    destruct (plot_best_k_complete df H3 Hax) as (r & Hr & _). eauto.
Qed.

Lemma plot_best_k_rejects_iff_witness :
  exists r, snd (plot_best_k shuffled_scores) = OK r.
Proof.
  apply (plot_best_k_rejects_iff shuffled_scores). split.
  - simpl. lia.
  - eexists. split; reflexivity.
Defined.

(** C7, as stated, fails: the call changes the caller's table when its
    rows are not in order of cluster count. *)
Lemma plot_best_k_mutates_unsorted :
  fst (plot_best_k shuffled_scores) <> shuffled_scores.
Proof. vm_compute. discriminate. Qed.

(** C7, amended. [plot_best_k] sorts the caller's table in place: after the
    call the table holds the same rows in non-decreasing order of cluster
    count. A table whose cluster counts strictly increase is left
    unchanged. When the cluster counts are pairwise distinct, calling again
    on the table the call left behind gives the same table and the same
    outcome. *)
Theorem plot_best_k_sorts_table (df : DataFrame) :
  fst (plot_best_k df) = sort_values df /\
  Permutation (fst (plot_best_k df)) df /\
  non_decreasing (column Number_of_Clusters (fst (plot_best_k df))) = true /\
  (strictly_increasing (column Number_of_Clusters df) = true ->
   fst (plot_best_k df) = df) /\
  (NoDup (column Number_of_Clusters df) ->
   plot_best_k (fst (plot_best_k df)) = plot_best_k df).
Proof.
  assert (Hfst : fst (plot_best_k df) = sort_values df) by reflexivity.
  rewrite Hfst.
  split; [reflexivity|]. split; [apply sort_values_perm|].
  split; [apply sort_values_sorted|]. split.
  - intros H. now apply sort_values_sorted_id, strictly_increasing_non_decreasing.
  - intros Hnd. apply plot_best_k_order; [apply sort_values_perm|].
    eapply Permutation_NoDup; [|exact Hnd]. unfold column.
    apply Permutation_map. symmetry. apply sort_values_perm.
Qed.

Lemma plot_best_k_sorts_table_witness :
  fst (plot_best_k sample_scores) = sample_scores.
Proof.
  apply (plot_best_k_sorts_table sample_scores). reflexivity.
Defined.

(** ** Marker palettes *)

Section Palettes.

Local Open Scope Z_scope.

(** An index inside the list is read directly. *)
Lemma getitem_Z_in_range {A : Type} (l : list A) (i : Z) (d : A) :
  0 <= i < Z.of_nat (length l) ->
  getitem_Z l i = OK (nth (Z.to_nat i) l d).
Proof.
  intros [H0 H1]. unfold getitem_Z.
  destruct (Z.leb_spec 0 i) as [_|]; [|lia].
  destruct (getitem_lt l (Z.to_nat i)) as (a & -> & Ha); [lia|].
  f_equal. symmetry. now apply nth_error_nth.
Qed.

Lemma marker_eq (cluster : Z) :
  PlotMap.marker cluster
  = OK (nth (Z.to_nat (cluster mod 10)) PlotMap.colors ""%string,
        nth (Z.to_nat ((cluster / 10) mod 10)) PlotMap.icons ""%string).
Proof.
  unfold PlotMap.marker.
  change (Z.of_nat (length PlotMap.colors)) with 10.
  change (Z.of_nat (length PlotMap.icons)) with 10.
  rewrite (getitem_Z_in_range PlotMap.colors (cluster mod 10) ""%string)
    by (change (Z.of_nat (length PlotMap.colors)) with 10;
        apply Z.mod_pos_bound; lia).
  rewrite (getitem_Z_in_range PlotMap.icons ((cluster / 10) mod 10) ""%string)
    by (change (Z.of_nat (length PlotMap.icons)) with 10;
        apply Z.mod_pos_bound; lia).
  reflexivity.
Qed.

Lemma OK_pair_inj {A B : Type} (a c : A) (b d : B) :
  OK (a, b) = OK (c, d) -> a = c /\ b = d.
Proof. intros [= -> ->]. now split. Qed.

Lemma colors_NoDup : NoDup PlotMap.colors.
Proof. repeat constructor; simpl; intuition discriminate. Qed.

Lemma icons_NoDup : NoDup PlotMap.icons.
Proof. repeat constructor; simpl; intuition discriminate. Qed.

(** In a list without repetition, equal items sit at equal positions. *)
Lemma nth_mod_inj (l : list string) (a b : Z) :
  NoDup l -> length l = 10%nat ->
  nth (Z.to_nat (a mod 10)) l ""%string = nth (Z.to_nat (b mod 10)) l ""%string ->
  a mod 10 = b mod 10.
Proof.
  intros Hnd Hlen Heq.
  pose proof (Z.mod_pos_bound a 10 eq_refl) as Ha.
  pose proof (Z.mod_pos_bound b 10 eq_refl) as Hb.
  apply Z2Nat.inj; try lia.
  apply (proj1 (NoDup_nth l ""%string) Hnd); try lia. exact Heq.
Qed.

Lemma marker_inj (c1 c2 : Z) :
  0 <= c1 < 100 -> 0 <= c2 < 100 ->
  PlotMap.marker c1 = PlotMap.marker c2 -> c1 = c2.
Proof.
  intros H1 H2. rewrite !marker_eq. intros H.
  apply OK_pair_inj in H. destruct H as [Hc Hi].
  apply nth_mod_inj in Hc; [|apply colors_NoDup|reflexivity].
  apply nth_mod_inj in Hi; [|apply icons_NoDup|reflexivity].
  rewrite (Z.mod_small (c1 / 10)) in Hi
    by (split; [apply Z.div_pos | apply Z.div_lt_upper_bound]; lia).
  rewrite (Z.mod_small (c2 / 10)) in Hi
    by (split; [apply Z.div_pos | apply Z.div_lt_upper_bound]; lia).
  rewrite (Z.div_mod c1 10), (Z.div_mod c2 10) by lia. congruence.
Qed.

Lemma marker_period (cluster : Z) :
  PlotMap.marker (cluster + 100) = PlotMap.marker cluster.
Proof.
  rewrite !marker_eq.
  replace (cluster + 100) with (cluster + 10 * 10) by lia.
  rewrite Z_mod_plus_full, Z.div_add by lia.
  replace (cluster / 10 + 10) with (cluster / 10 + 1 * 10) by lia.
  now rewrite Z_mod_plus_full.
Qed.

Lemma gradient_colors_no_lightgreen :
  ~ In "lightgreen"%string PlotMapGradientColor.colors.
Proof. simpl. intuition discriminate. Qed.

Lemma base_color_eq (cluster : Z) :
  PlotMapGradientColor.base_color cluster
  = OK (nth (Z.to_nat (cluster mod 18)) PlotMapGradientColor.colors ""%string).
Proof.
  unfold PlotMapGradientColor.base_color.
  change (Z.of_nat (length PlotMapGradientColor.colors)) with 18.
  apply getitem_Z_in_range.
  change (Z.of_nat (length PlotMapGradientColor.colors)) with 18.
  apply Z.mod_pos_bound. lia.
Qed.

End Palettes.

(** C8. The palette of [plot_map_gradient_color] has 18 entries, not 19:
    ['lightred'] and ['lightgreen'] are joined into the one entry
    ['lightredlightgreen'] (at position 15), the base colour of a cluster is
    [colors[cluster % 18]], and no cluster gets ['lightgreen']. *)
Theorem gradient_palette_18_entries (cluster : Z) :
  length PlotMapGradientColor.colors = 18%nat /\
  nth_error PlotMapGradientColor.colors 15
  = Some "lightredlightgreen"%string /\
  PlotMapGradientColor.base_color cluster
  = OK (nth (Z.to_nat (cluster mod 18)) PlotMapGradientColor.colors ""%string) /\
  PlotMapGradientColor.base_color cluster <> OK "lightgreen"%string.
Proof.
  split; [reflexivity|]. split; [reflexivity|]. split; [apply base_color_eq|].
  rewrite base_color_eq. intros H.
  assert (Hnth : nth (Z.to_nat (cluster mod 18)) PlotMapGradientColor.colors
                     ""%string = "lightgreen"%string) by congruence.
  apply gradient_colors_no_lightgreen. rewrite <- Hnth. apply nth_In.
  change (length PlotMapGradientColor.colors) with (Z.to_nat 18).
  apply Z2Nat.inj_lt; try lia; apply Z.mod_pos_bound; lia.
Qed.

(** C9. In [plot_map] the marker of a cluster has the colour
    [colors[cluster % 10]] and the icon [icons[(cluster // 10) % 10]] of the
    two lists of ten; the labels 0 to 99 get pairwise distinct pairs, and
    two labels that differ by 100 get the same pair. *)
Theorem marker_color_icon (cluster : Z) :
  (length PlotMap.colors = 10%nat /\ length PlotMap.icons = 10%nat) /\
  PlotMap.marker cluster
  = OK (nth (Z.to_nat (cluster mod 10)) PlotMap.colors ""%string,
        nth (Z.to_nat ((cluster / 10) mod 10)) PlotMap.icons ""%string) /\
  (forall c1 c2 : Z, (0 <= c1 < 100)%Z -> (0 <= c2 < 100)%Z ->
     PlotMap.marker c1 = PlotMap.marker c2 -> c1 = c2) /\
  PlotMap.marker (cluster + 100) = PlotMap.marker cluster.
Proof.
  split; [split; reflexivity|]. split; [apply marker_eq|].
  split; [apply marker_inj | apply marker_period].
Qed.

Lemma marker_color_icon_witness :
  PlotMap.marker (23 + 100) = PlotMap.marker 23.
Proof.
  apply (marker_color_icon 23).
Defined.

(** ** Gradient colours *)

Section GradientExact.

Local Open Scope Q_scope.

(** Truncation of a non-negative rational lying between two integers stays
    between them. *)
Lemma Qtrunc_bounds (x : Q) (lo hi : Z) :
  (0 <= lo)%Z -> inject_Z lo <= x -> x <= inject_Z hi ->
  (lo <= Qtrunc x <= hi)%Z.
Proof.
  destruct x as [n d]. unfold Qle, Qtrunc, inject_Z. simpl.
  intros H0 Hlo Hhi.
  rewrite Z.quot_div_nonneg by lia. split.
  - apply Z.div_le_lower_bound; lia.
  - apply Z.div_le_upper_bound; lia.
Qed.

(** In exact arithmetic the channel stays between the base colour and
    white, and reaches the base colour at [value = max_value]. *)
Lemma gradient_channel_exact_bounds (base : Z) (value max_value : Q) :
  (0 <= base <= 255)%Z ->
  0 <= value -> value <= max_value -> 0 < max_value ->
  (base <= gradient_channel_exact 255 base value max_value <= 255)%Z /\
  (value == max_value ->
   gradient_channel_exact 255 base value max_value = base).
Proof.
  intros [Hb0 Hb1] Hv0 Hv1 Hm. unfold gradient_channel_exact.
  set (f := value / max_value).
  assert (Hf0 : 0 <= f).
  { apply Qle_shift_div_l; [assumption|]. now rewrite Qmult_0_l. }
  assert (Hf1 : f <= 1).
  { apply Qle_shift_div_r; [assumption|]. now rewrite Qmult_1_l. }
  assert (Hq0 : inject_Z 0 <= inject_Z base)
    by (rewrite <- Zle_Qle; exact Hb0).
  assert (Hq1 : inject_Z base <= inject_Z 255)
    by (rewrite <- Zle_Qle; exact Hb1).
  change (inject_Z 0) with 0 in Hq0. change (inject_Z 255) with 255 in *.
  split.
  - apply Qtrunc_bounds; [assumption| |];
      change (inject_Z 255) with 255; nra.
  - intros Heq.
    assert (Hf : f == 1).
    { unfold f. rewrite Heq. apply Qmult_inv_r.
      intros H. rewrite H in Hm. discriminate. }
    assert (Hx : 255 * (1 - f) + inject_Z base * f == inject_Z base)
      by (rewrite Hf; ring).
    apply Z.le_antisymm;
      apply (Qtrunc_bounds _ base base); try assumption;
      rewrite Hx; apply Qle_refl.
Qed.

End GradientExact.

(** The float computation reaches the base colour at [factor = 1] and white
    at [factor = 0], for each of the 256 channel values. *)
Lemma gradient_channel_ends :
  forallb (fun b =>
             match gradient_channel 255 b 1, gradient_channel 255 b 0 with
             | OK c1, OK c0 => (c1 =? b)%Z && (c0 =? 255)%Z
             | _, _ => false
             end)
          (map Z.of_nat (seq 0 256)) = true.
Proof. vm_compute. reflexivity. Qed.

(** C10. The float computation breaks the lower bound of the claim: for the
    base colour white, (255, 255, 255), the value 3 and the maximum 7,
    [get_gradient_color] returns (254, 254, 254), a channel below
    [min(255, 255) = 255]. Rounding makes
    [255 * (1 - 3/7) + 255 * (3/7)] fall just below 255 and [int]
    truncates it. *)
Theorem get_gradient_color_white_3_7 :
  get_gradient_color ImageColor_getcolor "white" 3 7
  = OK (254, 254, 254)%Z /\
  gradient_channel_exact 255 255 3 7 = 255%Z.
Proof. split; vm_compute; reflexivity. Qed.

(** * Properties of the further functions *)

Example subplot_grid_ex : subplot_grid 10 = Return (3, 4)%Z.
Proof. vm_compute. reflexivity. Qed.

Example subplot_grid_0 : subplot_grid 0 = ZeroDivisionError.
Proof. vm_compute. reflexivity. Qed.

Lemma subplot_grid_fits_range :
  forallb subplot_grid_fits (range 1 10001) = true.
Proof. vm_compute. reflexivity. Qed.

(** ** The grid of panels *)

Section Grid.

Local Open Scope Z_scope.

Lemma cell_inj (cols i j : Z) : cell cols i = cell cols j -> i = j.
Proof.
  unfold cell. intros [= Hd Hm].
  destruct (Z.eq_dec cols 0) as [->|Hc].
  - now rewrite !Z.mod_0_r in Hm.
  - rewrite (Z.div_mod i cols), (Z.div_mod j cols) by assumption. congruence.
Qed.

Lemma cell_in_grid (rows cols i : Z) :
  0 < cols -> 0 <= i < rows * cols ->
  0 <= fst (cell cols i) < rows /\ 0 <= snd (cell cols i) < cols.
Proof.
  intros Hc Hi. unfold cell. simpl. repeat split.
  - apply Z.div_pos; lia.
  - apply Z.div_lt_upper_bound; lia.
  - apply Z.mod_pos_bound; lia.
  - apply Z.mod_pos_bound; lia.
Qed.

Lemma cell_onto (rows cols r c : Z) :
  0 <= r < rows -> 0 <= c < cols ->
  0 <= r * cols + c < rows * cols /\ cell cols (r * cols + c) = (r, c).
Proof.
  intros Hr Hc. split; [nia|]. unfold cell. f_equal.
  - rewrite Z.div_add_l by lia. rewrite Z.div_small by lia. lia.
  - rewrite Z.add_comm, Z_mod_plus_full. apply Z.mod_small. lia.
Qed.

Lemma grid_fits_spec (n rows cols : Z) :
  grid_fits n rows cols = true <->
  ((cols - 1) * (cols - 1) < n <= cols * cols) /\
  ((rows - 1) * cols < n <= rows * cols).
Proof.
  unfold grid_fits. rewrite !andb_true_iff, !Z.ltb_lt, !Z.leb_le. tauto.
Qed.

Lemma subplot_grid_returns (n : Z) :
  1 <= n <= 10000 ->
  exists rows cols : Z,
    subplot_grid n = Return (rows, cols) /\ grid_fits n rows cols = true.
Proof.
  intros Hn.
  pose proof (proj1 (forallb_forall _ _) subplot_grid_fits_range n) as H.
  specialize (H (proj2 (range_In 1 10001 n) ltac:(lia))).
  unfold subplot_grid_fits in H.
  destruct (subplot_grid n) as [[rows cols]| |e]; try discriminate.
  eauto.
Qed.

End Grid.

(** X1. [plot_time_series_data_sensor], lines 88 to 92. For 1 to 10000
    sensors the grid is computed without error; [cols] is the least integer
    whose square reaches the number of sensors and [rows] the least number
    of rows of [cols] panels that hold them all, so every sensor has a
    panel and no row is empty; and the grid is square-ish, as the comment
    in the source says: [rows] is [cols] or [cols - 1]. *)
Theorem subplot_grid_square_ish (n : Z) :
  (1 <= n <= 10000)%Z ->
  exists rows cols : Z,
    subplot_grid n = Return (rows, cols) /\
    ((cols - 1) * (cols - 1) < n <= cols * cols)%Z /\
    ((rows - 1) * cols < n <= rows * cols)%Z /\
    (cols - 1 <= rows <= cols)%Z.
Proof.
  intros Hn. destruct (subplot_grid_returns n Hn) as (rows & cols & Hg & H).
  apply grid_fits_spec in H. destruct H as [Hc Hr].
  exists rows, cols. repeat split; try assumption; try lia; nia.
Qed.

(** X11. [plot_time_series_data_sensor], lines 88 to 92. Among 0 to 10000
    sensors the grid computation fails exactly for a table without
    sensors: [cols] is then 0 and [num_sensors / cols] divides by zero. *)
Theorem subplot_grid_zero_division (n : Z) :
  (0 <= n <= 10000)%Z ->
  (subplot_grid n = ZeroDivisionError <-> n = 0%Z).
Proof.
  intros Hn. split.
  - intros H. destruct (Z.eq_dec n 0) as [|Hne]; [assumption|].
    destruct (subplot_grid_returns n ltac:(lia)) as (rows & cols & Hg & _).
    congruence.
  - intros ->. vm_compute. reflexivity.
Qed.

Lemma subplot_grid_zero_division_witness :
  subplot_grid 0 = ZeroDivisionError <-> 0%Z = 0%Z.
Proof.
  apply (subplot_grid_zero_division 0). lia.
Defined.

Lemma subplot_grid_square_ish_witness :
  exists rows cols : Z,
    subplot_grid 10 = Return (rows, cols) /\
    ((cols - 1) * (cols - 1) < 10 <= cols * cols)%Z /\
    ((rows - 1) * cols < 10 <= rows * cols)%Z /\
    (cols - 1 <= rows <= cols)%Z.
Proof.
  apply (subplot_grid_square_ish 10). lia.
Defined.

(** The index pairs of a grid with a positive number of columns: those of
    the sensors and those switched off are every pair of the grid once. *)
Lemma cells_partition (n rows cols : Z) :
  (0 < cols)%Z -> (0 <= n <= rows * cols)%Z ->
  NoDup (sensor_cells n cols ++ off_cells n rows cols) /\
  (forall r c : Z,
     In (r, c) (sensor_cells n cols ++ off_cells n rows cols)
     <-> (0 <= r < rows)%Z /\ (0 <= c < cols)%Z) /\
  (forall p, In p (sensor_cells n cols) -> ~ In p (off_cells n rows cols)).
Proof.
  intros Hc Hn. unfold sensor_cells, off_cells.
  rewrite <- map_app, range_app by lia.
  split; [|split].
  - apply NoDup_map_inj; [apply cell_inj | apply range_NoDup].
  - intros r c. rewrite in_map_iff. split.
    + intros (i & Hi & Hin). apply range_In in Hin.
      pose proof (cell_in_grid rows cols i Hc ltac:(lia)) as H.
      rewrite Hi in H. exact H.
    + intros [Hr Hcc].
      destruct (cell_onto rows cols r c Hr Hcc) as [Hb He].
      exists (r * cols + c)%Z. split; [exact He|].
      apply range_In. lia.
  - intros p. rewrite !in_map_iff.
    intros (i & Hi & Hin) (j & Hj & Hjn).
    apply range_In in Hin. apply range_In in Hjn.
    assert (i = j) by (apply (cell_inj cols); congruence). lia.
Qed.

(** X2. [plot_time_series_data_sensor], lines 88 to 92, 101, 107, 108,
    135 and 136. For 3 to 10000 sensors the grid has at least two rows and
    two columns, so that the axes are a two-dimensional array of [rows] by
    [cols] panels; the panels [axes[i // cols, i % cols]] the sensors are
    drawn in and the panels switched off are, together, every panel of
    that array exactly once: no index leaves the array, no two sensors
    share a panel and no unused panel stays on. *)
Theorem sensor_and_off_cells_partition (n : Z) :
  (3 <= n <= 10000)%Z ->
  exists rows cols : Z,
    subplot_grid n = Return (rows, cols) /\
    (2 <= rows)%Z /\ (2 <= cols)%Z /\
    NoDup (sensor_cells n cols ++ off_cells n rows cols) /\
    (forall r c : Z,
       In (r, c) (sensor_cells n cols ++ off_cells n rows cols)
       <-> (0 <= r < rows)%Z /\ (0 <= c < cols)%Z) /\
    (forall p, In p (sensor_cells n cols) -> ~ In p (off_cells n rows cols)).
Proof.
  intros Hn.
  destruct (subplot_grid_returns n ltac:(lia)) as (rows & cols & Hg & H).
  apply grid_fits_spec in H. destruct H as [Hc Hr].
  assert (H2c : (2 <= cols)%Z) by nia.
  assert (H2r : (2 <= rows)%Z) by nia.
  exists rows, cols. split; [exact Hg|]. split; [exact H2r|].
  split; [exact H2c|]. apply cells_partition; lia.
Qed.

Lemma sensor_and_off_cells_partition_witness :
  exists rows cols : Z,
    subplot_grid 10 = Return (rows, cols) /\
    (2 <= rows)%Z /\ (2 <= cols)%Z /\
    NoDup (sensor_cells 10 cols ++ off_cells 10 rows cols) /\
    (forall r c : Z,
       In (r, c) (sensor_cells 10 cols ++ off_cells 10 rows cols)
       <-> (0 <= r < rows)%Z /\ (0 <= c < cols)%Z) /\
    (forall p, In p (sensor_cells 10 cols) -> ~ In p (off_cells 10 rows cols)).
Proof.
  apply (sensor_and_off_cells_partition 10). lia.
Defined.

(** ** Panel titles *)

Section Titles.

Variable sep : Ascii.ascii.

Lemma split_not_nil (s : string) : PyStr.split sep s <> [].
Proof.
  destruct s as [|c s]; simpl; [discriminate|].
  destruct (Ascii.eqb c sep); [discriminate|].
  destruct (PyStr.split sep s); discriminate.
Qed.

(** Joining the pieces with the separator gives the string back. *)
Lemma join_split (s : string) : PyStr.join sep (PyStr.split sep s) = s.
Proof.
  induction s as [|c s IH]; simpl; [reflexivity|].
  destruct (Ascii.eqb_spec c sep) as [->|Hne].
  - pose proof (split_not_nil s) as Hnil.
    destruct (PyStr.split sep s) as [|x r]; [congruence|].
    simpl in *. now rewrite IH.
  - destruct (PyStr.split sep s) as [|x r] eqn:E; [now apply split_not_nil in E|].
    destruct r as [|y r]; simpl in *; now rewrite <- IH.
Qed.

(** No piece holds the separator. *)
Lemma split_pieces (s : string) :
  Forall (fun piece => PyStr.contains sep piece = false) (PyStr.split sep s).
Proof.
  induction s as [|c s IH]; simpl; [now constructor|].
  destruct (Ascii.eqb c sep) eqn:E; [now constructor|].
  destruct (PyStr.split sep s) as [|x r]; [repeat constructor; simpl; now rewrite E|].
  inversion IH; subst. constructor; [|assumption]. simpl. now rewrite E.
Qed.

(** A string without the separator is its only piece. *)
Lemma split_without (s : string) :
  PyStr.contains sep s = false -> PyStr.split sep s = [s].
Proof.
  induction s as [|c s IH]; simpl; [reflexivity|].
  destruct (Ascii.eqb c sep); simpl; [discriminate|].
  intros H. now rewrite (IH H).
Qed.

Lemma append_step (a b : string) (c : Ascii.ascii) (t : string) :
  (a ++ String c (b ++ t) = (a ++ String c b) ++ t)%string.
Proof. induction a as [|x a IH]; simpl; [reflexivity|]. now rewrite IH. Qed.

Lemma join_last (pieces : list string) :
  pieces <> [] ->
  PyStr.join sep pieces = last pieces EmptyString \/
  exists before : string,
    PyStr.join sep pieces = (before ++ String sep (last pieces EmptyString))%string.
Proof.
  induction pieces as [|x r IH]; [congruence|intros _].
  destruct r as [|y r]; [now left|]. right.
  destruct IH as [H|[before H]]; [discriminate| |].
  - exists x. cbn [PyStr.join last]. cbn [PyStr.join last] in H. now rewrite H.
  - exists (x ++ String sep before)%string.
    cbn [PyStr.join last]. cbn [PyStr.join last] in H. rewrite H.
    apply append_step.
Qed.

Lemma last_item_split (s : string) :
  exists t, last_item (PyStr.split sep s) = OK t /\ after_last sep s t.
Proof.
  pose proof (split_not_nil s) as Hnil.
  pose proof (split_pieces s) as Hpieces.
  pose proof (join_last (PyStr.split sep s) Hnil) as Hjoin.
  rewrite join_split in Hjoin.
  exists (last (PyStr.split sep s) EmptyString). split.
  - unfold last_item. destruct (PyStr.split sep s); [congruence|reflexivity].
  - assert (Hlast : PyStr.contains sep (last (PyStr.split sep s) EmptyString) = false).
    { rewrite Forall_forall in Hpieces. apply Hpieces.
      destruct (exists_last Hnil) as (l & a & ->).
      rewrite last_last. apply in_or_app. right. now left. }
    split; [exact Hlast|].
    destruct Hjoin as [H|H]; [left|right; exact H].
    split; [|now symmetry]. now rewrite H at 1.
Qed.

End Titles.

(** X3. [plot_time_series_data_sensor], lines 111 and 112. The title of a
    panel is what follows the last ['|'] of the sensor name, or the whole
    name when it has no ['|']; it never holds a ['|'] and the expression
    never fails. The test ['|' in title] changes nothing: the last piece of
    the split is the same string in both cases. *)
Theorem new_title_after_last_bar (title : string) :
  exists t, new_title title = OK t /\
            after_last "|"%char title t /\
            last_item (PyStr.split "|"%char title) = OK t.
Proof.
  unfold new_title. destruct (PyStr.contains "|"%char title) eqn:E.
  - destruct (last_item_split "|"%char title) as (t & Ht & Ha). eauto.
  - exists title. split; [reflexivity|]. split.
    + split; [exact E|]. left. now split.
    + now rewrite (split_without "|"%char title E).
Qed.

(** X4. [plot_time_series_data_iterative], line 170. The facet label is
    what follows the last ['='] of the annotation text, or the whole text
    when it has no ['=']; it never holds a ['='] and the expression never
    fails. *)
Theorem annotation_text_after_last_eq (text : string) :
  exists t, annotation_text text = OK t /\ after_last "="%char text t.
Proof. apply last_item_split. Qed.

(** ** [plot_best_k] and the order of the rows *)

(** X5. [plot_best_k], lines 195 to 238. When the cluster counts of the
    table are pairwise distinct, the order of the rows does not matter:
    two tables with the same rows in different orders give the same
    outcome and leave the same sorted table behind. *)
Theorem plot_best_k_row_order (df1 df2 : DataFrame) :
  Permutation df1 df2 ->
  NoDup (column Number_of_Clusters df1) ->
  plot_best_k df1 = plot_best_k df2.
Proof.
  intros Hp Hnd. now apply plot_best_k_order.
Qed.

Lemma plot_best_k_row_order_witness :
  plot_best_k shuffled_scores
  = plot_best_k (firstn 3 sample_scores).
Proof.
  apply (plot_best_k_row_order shuffled_scores (firstn 3 sample_scores)).
  - apply perm_trans with (firstn 2 sample_scores ++ [nth 2 sample_scores (mkRow 0 0 0 0 0)]).
    + simpl. apply perm_swap.
    + reflexivity.
  - repeat constructor; simpl; intuition discriminate.
Defined.

(** ** The pairs [plot_best_k] marks *)

Section MarkedPairs.

Variable f : Row -> Q.

Lemma nth_column (df : DataFrame) (j : nat) (row : Row) :
  nth_error df j = Some row -> nth j (column f df) 0%Q = f row.
Proof.
  intros H. apply nth_error_nth. unfold column. now apply map_nth_error.
Qed.

Lemma picks_row (df : DataFrame) (i : nat) (p : Z * Q) :
  picks df (column f df) i p ->
  exists row, nth_error df i = Some row /\
              p = (Number_of_Clusters row, f row).
Proof.
  unfold picks, column. rewrite !nth_error_map. intros [Hk Hf].
  destruct (nth_error df i) as [row|]; [|discriminate].
  exists row. split; [reflexivity|]. simpl in *.
  destruct p as [k v]. simpl in *. congruence.
Qed.

Lemma sorted_from_nth (ks : list Z) :
  forall k j, non_decreasing_from k ks = true -> (j < length ks)%nat ->
              (k <= nth j ks 0)%Z.
Proof.
  induction ks as [|k' ks IH]; intros k j; simpl; [lia|].
  rewrite andb_true_iff. intros [H1 H2] Hj. apply Z.leb_le in H1.
  destruct j as [|j]; [assumption|].
  apply Z.le_trans with k'; [assumption|]. apply IH; [assumption|lia].
Qed.

Lemma sorted_nth (ks : list Z) :
  forall i j, non_decreasing ks = true -> (i <= j < length ks)%nat ->
              (nth i ks 0 <= nth j ks 0)%Z.
Proof.
  induction ks as [|k ks IH]; intros i j; simpl; [lia|].
  intros H Hij. destruct i as [|i], j as [|j]; try lia.
  - apply sorted_from_nth; [assumption|lia].
  - apply IH; [|lia]. eapply non_decreasing_from_tail, H.
Qed.

Lemma nth_keys (df : DataFrame) (j : nat) (row : Row) :
  nth_error df j = Some row ->
  nth j (column Number_of_Clusters df) 0%Z = Number_of_Clusters row.
Proof.
  intros H. apply nth_error_nth. unfold column. now apply map_nth_error.
Qed.

(** What [plot_subplot] returns for a metric where higher is better: a row
    of the table whose score no row exceeds, and among the rows with that
    score the first one. *)
Lemma picked_max (df : DataFrame) (i : nat) (p : Z * Q) :
  select_by_extremum (column f df) true = OK i ->
  picks df (column f df) i p ->
  exists row0, In row0 df /\ p = (Number_of_Clusters row0, f row0) /\
    (forall row, In row df -> f row <= f row0) /\
    (non_decreasing (column Number_of_Clusters df) = true ->
     forall row, In row df -> f row == f row0 ->
                 (Number_of_Clusters row0 <= Number_of_Clusters row)%Z).
Proof.
  intros Hsel Hp.
  destruct (picks_row df i p Hp) as (row0 & Hrow0 & ->).
  assert (Hne : column f df <> []).
  { intros E. rewrite E in Hsel. discriminate. }
  destruct (select_max_first (column f df) Hne) as (i' & Hi' & [Hlt Hmax] & Hfst).
  assert (i' = i) by congruence. subst i'.
  rewrite (nth_column df i row0 Hrow0) in Hmax.
  exists row0. split; [eapply nth_error_In; eassumption|].
  split; [reflexivity|]. split.
  - intros row Hin. destruct (In_nth_error df row Hin) as [j Hj].
    rewrite <- (nth_column df j row Hj). apply Hmax.
    rewrite column_length. apply nth_error_Some. congruence.
  - intros Hsorted row Hin Heq.
    destruct (In_nth_error df row Hin) as [j Hj].
    assert (Hjlt : (j < length df)%nat) by (apply nth_error_Some; congruence).
    destruct (Nat.lt_ge_cases j i) as [Hji|Hij].
    + exfalso. apply (Hfst j Hji). split; [now rewrite column_length|].
      intros j' Hj'. rewrite (nth_column df j row Hj), Heq. now apply Hmax.
    + rewrite <- (nth_keys df i row0 Hrow0), <- (nth_keys df j row Hj).
      apply sorted_nth; [assumption|]. rewrite column_length. lia.
Qed.

Lemma picked_min (df : DataFrame) (i : nat) (p : Z * Q) :
  select_by_extremum (column f df) false = OK i ->
  picks df (column f df) i p ->
  exists row0, In row0 df /\ p = (Number_of_Clusters row0, f row0) /\
    (forall row, In row df -> f row0 <= f row) /\
    (non_decreasing (column Number_of_Clusters df) = true ->
     forall row, In row df -> f row == f row0 ->
                 (Number_of_Clusters row0 <= Number_of_Clusters row)%Z).
Proof.
  intros Hsel Hp.
  destruct (picks_row df i p Hp) as (row0 & Hrow0 & ->).
  assert (Hne : column f df <> []).
  { intros E. rewrite E in Hsel. discriminate. }
  destruct (select_min_first (column f df) Hne) as (i' & Hi' & [Hlt Hmin] & Hfst).
  assert (i' = i) by congruence. subst i'.
  rewrite (nth_column df i row0 Hrow0) in Hmin.
  exists row0. split; [eapply nth_error_In; eassumption|].
  split; [reflexivity|]. split.
  - intros row Hin. destruct (In_nth_error df row Hin) as [j Hj].
    rewrite <- (nth_column df j row Hj). apply Hmin.
    rewrite column_length. apply nth_error_Some. congruence.
  - intros Hsorted row Hin Heq.
    destruct (In_nth_error df row Hin) as [j Hj].
    assert (Hjlt : (j < length df)%nat) by (apply nth_error_Some; congruence).
    destruct (Nat.lt_ge_cases j i) as [Hji|Hij].
    + exfalso. apply (Hfst j Hji). split; [now rewrite column_length|].
      intros j' Hj'. rewrite (nth_column df j row Hj), Heq. now apply Hmin.
    + rewrite <- (nth_keys df i row0 Hrow0), <- (nth_keys df j row Hj).
      apply sorted_nth; [assumption|]. rewrite column_length. lia.
Qed.

End MarkedPairs.

(** X6. [plot_best_k], lines 193 to 238. On a table of at least three rows
    whose cluster counts are the integers from the smallest to the largest
    of them, each once, in any order, the silhouette and the
    Calinski-Harabasz panels mark a row with the largest score of the table
    and the Davies-Bouldin panel a row with the smallest; when several rows
    share that score, the one with the smallest cluster count is marked;
    the distortion panel marks a row of the table too. In each pair the
    cluster count and the score come from the same row. *)
Theorem plot_best_k_marks_best_rows (df : DataFrame) :
  (3 <= length df)%nat ->
  fills_range df ->
  exists r, snd (plot_best_k df) = OK r /\
    best_row true Silhouette_Score df (silhouette r) /\
    best_row false Davies_Bouldin df (davies_bouldin r) /\
    best_row true Calinski_Harabasz df (calinski_harabasz r) /\
    (exists row, In row df /\
                 distortion r = (Number_of_Clusters row, Distortion row)).
Proof.
  intros H3 Hfill.
  destruct (plot_best_k_complete df H3 (fills_range_axis df Hfill))
    as (r & Hr & i_s & i_d & i_b & i_c & [Hs Ps] & [Hd Pd] & [Hb Pb] & [Hc Pc]).
  pose proof (sort_values_sorted df) as Hsorted.
  assert (Hin : forall row, In row df -> In row (sort_values df)).
  { intros row. apply Permutation_in. symmetry. apply sort_values_perm. }
  assert (Hin' : forall row, In row (sort_values df) -> In row df).
  { intros row. apply Permutation_in. apply sort_values_perm. }
  exists r. split; [exact Hr|]. repeat split.
  - destruct (picked_max Silhouette_Score _ _ _ Hs Ps)
      as (row0 & H0 & Hp & Hmax & Hfst).
    exists row0. repeat split; auto.
  - destruct (picked_min Davies_Bouldin _ _ _ Hb Pb)
      as (row0 & H0 & Hp & Hmin & Hfst).
    exists row0. repeat split; auto.
  - destruct (picked_max Calinski_Harabasz _ _ _ Hc Pc)
      as (row0 & H0 & Hp & Hmax & Hfst).
    exists row0. repeat split; auto.
  - destruct (picks_row Distortion _ _ _ Pd) as (row & Hrow & Hp).
    exists row. split; [|exact Hp].
    apply Hin'. eapply nth_error_In, Hrow.
Qed.

Lemma plot_best_k_marks_best_rows_witness :
  exists r, snd (plot_best_k shuffled_scores) = OK r /\
    best_row true Silhouette_Score shuffled_scores (silhouette r) /\
    best_row false Davies_Bouldin shuffled_scores (davies_bouldin r) /\
    best_row true Calinski_Harabasz shuffled_scores (calinski_harabasz r) /\
    (exists row, In row shuffled_scores /\
                 distortion r = (Number_of_Clusters row, Distortion row)).
Proof.
  apply (plot_best_k_marks_best_rows shuffled_scores).
  - simpl. lia.
  - exists [2; 3; 4]%Z. split; [reflexivity|]. apply perm_swap.
Defined.

(** ** The colours of [plot_map_gradient_color] *)

Section GradientPalette.

Local Open Scope Z_scope.

Lemma gradient_colors_NoDup : NoDup PlotMapGradientColor.colors.
Proof. repeat constructor; simpl; intuition discriminate. Qed.

Lemma base_color_inj (c1 c2 : Z) :
  PlotMapGradientColor.base_color c1 = PlotMapGradientColor.base_color c2 ->
  c1 mod 18 = c2 mod 18.
Proof.
  rewrite !base_color_eq. intros H.
  assert (Hn : nth (Z.to_nat (c1 mod 18)) PlotMapGradientColor.colors ""%string
               = nth (Z.to_nat (c2 mod 18)) PlotMapGradientColor.colors ""%string)
    by congruence.
  pose proof (Z.mod_pos_bound c1 18 eq_refl) as H1.
  pose proof (Z.mod_pos_bound c2 18 eq_refl) as H2.
  apply Z2Nat.inj; try lia.
  apply (proj1 (NoDup_nth PlotMapGradientColor.colors ""%string)
               gradient_colors_NoDup);
    try (change (length PlotMapGradientColor.colors) with 18%nat; lia).
  exact Hn.
Qed.

End GradientPalette.

(** X7. [plot_map_gradient_color], lines 348 to 360. Two clusters get the
    same base colour exactly when their labels are congruent modulo 18: the
    18 entries of the palette are pairwise different, so the first 18
    labels are told apart and label 18 repeats the colour of label 0. *)
Theorem base_color_same_iff (c1 c2 : Z) :
  PlotMapGradientColor.base_color c1 = PlotMapGradientColor.base_color c2
  <-> (c1 mod 18 = c2 mod 18)%Z.
Proof.
  split; [apply base_color_inj|].
  intros H. now rewrite !base_color_eq, H.
Qed.

(** X8. [plot_map_gradient_color], lines 348 to 366. The joined palette
    entry ['lightredlightgreen'] is what is handed to the imaging library
    for every cluster whose label is 15 modulo 18: when the library rejects
    that name, the colour of every marker of such a cluster fails with the
    library's error, whatever the counts are. *)
Theorem gradient_color_joined_entry
  (getcolor : string -> result RGB) (e : exn) (cluster : Z)
  (value group_max_value : float) :
  getcolor "lightredlightgreen"%string = Raise e ->
  (cluster mod 18 = 15)%Z ->
  gradient_color getcolor cluster value group_max_value = Raise e.
Proof.
  intros Hget Hc. unfold gradient_color.
  rewrite base_color_eq, Hc. cbn [bind]. unfold get_gradient_color.
  change (nth (Z.to_nat 15) PlotMapGradientColor.colors ""%string)
    with "lightredlightgreen"%string.
  now rewrite Hget.
Qed.

Lemma gradient_color_joined_entry_witness :
  gradient_color ImageColor_getcolor 33 3 7 = Raise ValueError.
Proof.
  apply (gradient_color_joined_entry ImageColor_getcolor ValueError 33 3 7);
    reflexivity.
Defined.

(** ** The gradient at a count of zero *)

Section GradientAtZero.

(** Zero divided by a finite float other than zero is a zero. *)
Lemma zero_div_finite (x : float) (s : bool) (m : positive) (e : Z) :
  Prim2SF x = S754_finite s m e ->
  (0 / x)%float = (if s then PrimFloat.opp 0 else 0)%float.
Proof.
  intros H. apply Prim2SF_inj. rewrite FloatAxioms.div_spec, H.
  destruct s; reflexivity.
Qed.

Lemma gradient_channel_at_zero_range :
  forallb (fun b =>
             match gradient_channel 255 b 0,
                   gradient_channel 255 b (PrimFloat.opp 0) with
             | OK c, OK c' => (c =? 255)%Z && (c' =? 255)%Z
             | _, _ => false
             end)
          (range 0 256) = true.
Proof. vm_compute. reflexivity. Qed.

Lemma gradient_channel_at_zero (b : Z) (s : bool) :
  (0 <= b <= 255)%Z ->
  gradient_channel 255 b (if s then PrimFloat.opp 0 else 0)%float = OK 255%Z.
Proof.
  intros Hb.
  pose proof (proj1 (forallb_forall _ _) gradient_channel_at_zero_range b) as H.
  specialize (H (proj2 (range_In 0 256 b) ltac:(lia))). cbv beta in H.
  assert (Hboth : gradient_channel 255 b 0 = OK 255%Z /\
                  gradient_channel 255 b (PrimFloat.opp 0) = OK 255%Z).
  { destruct (gradient_channel 255 b 0) as [c|]; [|discriminate H].
    destruct (gradient_channel 255 b (PrimFloat.opp 0)) as [c'|];
      [|discriminate H].
    apply andb_true_iff in H. destruct H as [H1 H2].
    apply Z.eqb_eq in H1, H2. now subst. }
  destruct s; apply Hboth.
Qed.

End GradientAtZero.

(** X9. [get_gradient_color], lines 301 to 306. A count of zero is drawn
    white: for every colour the imaging library knows, with channels
    between 0 and 255, and every finite maximum other than zero,
    [get_gradient_color(base_color, 0, max_value)] is (255, 255, 255). *)
Theorem get_gradient_color_zero_is_white
  (getcolor : string -> result RGB) (base_color : string) (base_rgb : RGB)
  (max_value : float) (s : bool) (m : positive) (e : Z) :
  getcolor base_color = OK base_rgb ->
  rgb_in_range base_rgb ->
  Prim2SF max_value = S754_finite s m e ->
  get_gradient_color getcolor base_color 0 max_value = OK white_rgb.
Proof.
  intros Hget Hrange Hmax. unfold get_gradient_color.
  rewrite Hget. cbn [bind]. destruct base_rgb as [[b0 b1] b2].
  destruct Hrange as (H0 & H1 & H2). cbn [white_rgb].
  rewrite (zero_div_finite max_value s m e Hmax).
  rewrite !gradient_channel_at_zero by assumption. reflexivity.
Qed.

Lemma get_gradient_color_zero_is_white_witness :
  get_gradient_color ImageColor_getcolor "red" 0 7 = OK white_rgb.
Proof.
  eapply (get_gradient_color_zero_is_white
            ImageColor_getcolor "red" (255, 0, 0)%Z 7).
  - reflexivity.
  - simpl. lia.
  - vm_compute. reflexivity.
Defined.

(** ** The x axis of the panels *)

(** X10. [plot_best_k], lines 193, 194 and 212. For a table that is not
    empty and whose cluster counts are pairwise distinct, the x axis
    [range(min_x, max_x + 1)] has at least as many values as the table has
    rows, and it has exactly as many, one x value per score, if and only if
    it is the column of cluster counts of the sorted table, that is, when
    the cluster counts are consecutive integers. *)
Theorem x_axis_matches_iff_consecutive (df : DataFrame) :
  df <> [] ->
  NoDup (column Number_of_Clusters df) ->
  exists xs, x_axis df = Some xs /\
    (length df <= length xs)%nat /\
    (length xs = length df
     <-> xs = column Number_of_Clusters (sort_values df)).
Proof.
  intros Hne Hnd.
  assert (Hnd' : NoDup (column Number_of_Clusters (sort_values df))).
  { eapply Permutation_NoDup; [|exact Hnd]. unfold column.
    apply Permutation_map. symmetry. apply sort_values_perm. }
  pose proof (sort_values_sorted df) as Hsorted.
  pose proof (column_length Number_of_Clusters (sort_values df)) as Hlen.
  rewrite sort_values_length in Hlen.
  destruct (column Number_of_Clusters (sort_values df)) as [|k0 rest] eqn:E.
  { destruct df; [congruence | discriminate]. }
  assert (Hinc : increasing_from k0 rest = true)
    by (apply sorted_NoDup_increasing; assumption).
  destruct (increasing_from_last rest k0 Hinc) as (Hlast & _ & Hrange).
  exists (range k0 (last rest k0 + 1)).
  split; [now apply x_axis_sorted|].
  rewrite range_length. cbn [length] in Hlen. split; [lia|]. split.
  - intros H. symmetry. apply Hrange. lia.
  - intros H. apply (f_equal (@length Z)) in H.
    rewrite range_length in H. cbn [length] in H. lia.
Qed.

Lemma x_axis_matches_iff_consecutive_witness :
  exists xs, x_axis shuffled_scores = Some xs /\
    (length shuffled_scores <= length xs)%nat /\
    (length xs = length shuffled_scores
     <-> xs = column Number_of_Clusters (sort_values shuffled_scores)).
Proof.
  apply (x_axis_matches_iff_consecutive shuffled_scores).
  - discriminate.
  - repeat constructor; simpl; intuition discriminate.
Defined.
